(** * AutoGLM-GUI: the streaming chat client

    A shallow embedding of the two pieces of the frontend that carry the
    agent's event stream to the screen:

    - [sendMessageStream] (frontend API module): issues the request, reads
      the response body chunk by chunk, cuts it into lines, keeps the
      current event name and hands each decoded [data: ] payload to one of
      five callbacks;
    - [handleSend] (components/DevicePanel.tsx): the five callbacks of the
      chat panel, with the buffer and the 50ms timer that batch the
      thinking text.

    JavaScript strings are sequences of UTF-16 code units; they are lists
    of [N] here.  What the platform provides (fetch, the body reader,
    TextDecoder, JSON.parse, timers) is not code of the repository: the
    results it hands to the code are inputs of the model. *)

From Stdlib Require Import Ascii String DecimalString.
From Stdlib Require Import List NArith ZArith Bool Lia.
Import ListNotations.

Set Implicit Arguments.
Set Warnings "-register-all".

(** ** JavaScript strings *)

Module JS.

Definition codeunit := N.
Definition jsstring := list codeunit.

(** A string literal of the source, as code units. *)
Definition lit (s : string) : jsstring :=
  map N_of_ascii (list_ascii_of_string s).

Definition LF : codeunit := 10%N.

(** A literal that contains double quotes, written with ['] in their
    place. *)
Definition quoted (s : string) : jsstring :=
  map (fun c => if N.eqb c 39 then 34%N else c) (lit s).

Fixpoint eqb (a b : jsstring) : bool :=
  match a, b with
  | [], [] => true
  | x :: a', y :: b' => N.eqb x y && eqb a' b'
  | _, _ => false
  end.

(** [s.startsWith(p)] *)
Fixpoint startsWith (s p : jsstring) {struct p} : bool :=
  match p, s with
  | [], _ => true
  | y :: p', x :: s' => N.eqb x y && startsWith s' p'
  | _ :: _, [] => false
  end.

(** [s.slice(n)] for a non-negative [n] *)
Definition slice (s : jsstring) (n : nat) : jsstring := skipn n s.

(** WhiteSpace and LineTerminator of ECMAScript, the code units that
    [String.prototype.trim] strips. *)
Definition isWhiteSpace (c : codeunit) : bool :=
  let at_ x := N.eqb c x in
  (at_ 9 || at_ 10 || at_ 11 || at_ 12 || at_ 13 || at_ 32 || at_ 160
   || at_ 5760 || (N.leb 8192 c && N.leb c 8202) || at_ 8232 || at_ 8233
   || at_ 8239 || at_ 8287 || at_ 12288 || at_ 65279)%N%bool.

Fixpoint trimStart (s : jsstring) : jsstring :=
  match s with
  | [] => []
  | c :: s' => if isWhiteSpace c then trimStart s' else s
  end.

Definition trimEnd (s : jsstring) : jsstring := rev (trimStart (rev s)).

(** [s.trim()] *)
Definition trim (s : jsstring) : jsstring := trimEnd (trimStart s).

(** [s.split(sep)] for a separator of one code unit: never empty, and
    [split sep ""] is [[""]]. *)
Fixpoint split (sep : codeunit) (s : jsstring) : list jsstring :=
  match s with
  | [] => [[]]
  | c :: s' =>
      if N.eqb c sep then [] :: split sep s'
      else match split sep s' with
           | [] => [[c]]
           | l :: ls => (c :: l) :: ls
           end
  end.

(** [a.join('')] on an array of strings *)
Definition join (a : list jsstring) : jsstring := concat a.

(** [a.pop()]: the array without its last element, and that element
    ([None] stands for [undefined], on an empty array). *)
Definition pop (A : Type) (a : list A) : list A * option A :=
  match rev a with
  | [] => ([], None)
  | x :: r => (rev r, Some x)
  end.

(** [x || ''] on a string or [undefined] *)
Definition orEmpty (x : option jsstring) : jsstring :=
  match x with
  | Some (c :: s) => c :: s
  | _ => []
  end.

(** Template literal [`${n}`] of a non-negative integer *)
Definition ofN (n : N) : jsstring :=
  lit (NilZero.string_of_uint (N.to_uint n)).

End JS.

(** ** JSON values, as JavaScript sees them *)

Module Json.
Import JS.

Section Values.

(** JavaScript numbers are IEEE doubles; the model keeps them abstract. *)
Variable number : Type.

Inductive value : Type :=
| Null
| Bool (b : bool)
| Number (n : number)
| Str (s : jsstring)
| Arr (elements : list value)
| Obj (props : list (jsstring * value)).

(** An own property of an object that [JSON.parse] built. *)
Fixpoint lookup (props : list (jsstring * value)) (k : jsstring)
  : option value :=
  match props with
  | [] => None
  | (k', v) :: rest => if eqb k' k then Some v else lookup rest k
  end.

(** [obj[k] = v] on such an object: overwrite in place or append. *)
Fixpoint assign (props : list (jsstring * value)) (k : jsstring) (v : value)
  : list (jsstring * value) :=
  match props with
  | [] => [(k, v)]
  | (k', v') :: rest =>
      if eqb k' k then (k, v) :: rest else (k', v') :: assign rest k v
  end.

(** The outcome of evaluating [v.k], for a name [k] that is no built-in
    member of strings, arrays or [Object.prototype] (such as [detail]). *)
Inductive access : Type :=
| Throws            (* TypeError: property of null *)
| Undefined
| Got (v : value).

Definition getProp (v : value) (k : jsstring) : access :=
  match v with
  | Null => Throws
  | Obj props =>
      match lookup props k with
      | Some x => Got x
      | None => Undefined
      end
  | _ => Undefined
  end.

Variable number_truthy : number -> bool.
Variable number_toString : number -> jsstring.

(** ToBoolean *)
Definition truthy (v : value) : bool :=
  match v with
  | Null => false
  | Bool b => b
  | Number n => number_truthy n
  | Str s => match s with [] => false | _ => true end
  | Arr _ => true
  | Obj _ => true
  end.

(** ToString; an array joins its elements with commas, [null] elements
    contributing nothing. *)
Fixpoint toString (v : value) : jsstring :=
  match v with
  | Null => lit "null"
  | Bool true => lit "true"
  | Bool false => lit "false"
  | Number n => number_toString n
  | Str s => s
  | Arr elements =>
      (fix elems (l : list value) : jsstring :=
         match l with
         | [] => []
         | x :: r =>
             let sx := match x with Null => [] | _ => toString x end in
             match r with
             | [] => sx
             | _ => sx ++ lit "," ++ elems r
             end
         end) elements
  | Obj _ => lit "[object Object]"
  end.

End Values.

Arguments Null {number}.
Arguments Bool {number} b.
Arguments Str {number} s.
Arguments Throws {number}.
Arguments Undefined {number}.

End Json.

(** What the JavaScript platform contributes to the decoding: its numbers
    and [JSON.parse] ([None] when it throws a SyntaxError). *)
Record Platform : Type := {
  number : Type;
  number_truthy : number -> bool;
  number_toString : number -> JS.jsstring;
  JSON_parse : JS.jsstring -> option (Json.value number)
}.

(** ** sendMessageStream *)

Module Stream.
Import JS.

(** A thrown value: [error.name] and [error.message]. *)
Record JsError : Type := { name : jsstring; message : jsstring }.

(** What one [await reader.read()] yields; [value] is given as the text
    that [decoder.decode(value, { stream: true })] makes of it. *)
Inductive ReadResult : Type :=
| ReadValue (text : jsstring)
| ReadDone
| ReadReject (e : JsError).

(** How a promise ends, if it does. *)
Inductive Settled : Type :=
| Fulfilled
| Rejected (e : JsError)
| Pending.

Section Session.

Variable P : Platform.
Let json : Type := Json.value (number P).

Inductive JsonResult : Type :=
| JsonResolve (errorData : json)
| JsonReject (e : JsError).

(** A response: its status, what [response.json()] would give, and the
    [reader.read()] results of its body in order ([None]: the body is
    null; a list that runs out: the stream stalls for good). *)
Record Response : Type := {
  status : N;
  json_result : JsonResult;
  body : option (list ReadResult)
}.

(** [response.ok] *)
Definition ok (r : Response) : bool :=
  (N.leb 200 (status r) && N.leb (status r) 299)%bool.

Inductive FetchResult : Type :=
| FetchResolve (r : Response)
| FetchReject (e : JsError)
| FetchPending.

(** One invocation of a callback of the caller, with its argument. *)
Inductive Callback : Type :=
| OnThinkingChunk (data : json)
| OnStep (data : json)
| OnDone (data : json)
| OnError (data : json)
| OnAborted (data : json).

(** Whether the caller passed the optional [onAborted]. *)
Variable onAborted : bool.

Definition dispatch (eventType : jsstring) (data : json) : list Callback :=
  if eqb eventType (lit "thinking_chunk") then [OnThinkingChunk data]
  else if eqb eventType (lit "step") then [OnStep data]
  else if eqb eventType (lit "done") then [OnDone data]
  else if eqb eventType (lit "aborted") then
    (if onAborted then [OnAborted data] else [])
  else if eqb eventType (lit "error") then [OnError data]
  else [].

(** The body of [for (const line of lines)]: the new [eventType] and the
    callbacks invoked. *)
Definition processLine (eventType line : jsstring)
  : jsstring * list Callback :=
  if startsWith line (lit "event: ") then (trim (slice line 7), [])
  else if startsWith line (lit "data: ") then
    match JSON_parse P (slice line 6) with
    | Some data => (eventType, dispatch eventType data)
    | None => (eventType, [])
    end
  else (eventType, []).

Fixpoint processLines (eventType : jsstring) (lines : list jsstring)
  : jsstring * list Callback :=
  match lines with
  | [] => (eventType, [])
  | line :: rest =>
      let (eventType', cbs) := processLine eventType line in
      let (eventType'', cbs') := processLines eventType' rest in
      (eventType'', cbs ++ cbs')
  end.

(** The two variables of the read loop. *)
Record Parser : Type := { buffer : jsstring; eventType : jsstring }.

Definition initial : Parser :=
  {| buffer := []; eventType := lit "message" |}.

(** One turn of [while (true)] after a read that was not [done]. *)
Definition onValue (st : Parser) (text : jsstring)
  : Parser * list Callback :=
  let buffer1 := buffer st ++ text in
  let (lines, last) := pop (split LF buffer1) in
  let buffer2 := orEmpty last in
  let (eventType', cbs) := processLines (eventType st) lines in
  ({| buffer := buffer2; eventType := eventType' |}, cbs).

Fixpoint readLoop (st : Parser) (reads : list ReadResult)
  : Parser * list Callback * Settled :=
  match reads with
  | [] => (st, [], Pending)
  | ReadDone :: _ => (st, [], Fulfilled)
  | ReadReject e :: _ => (st, [], Rejected e)
  | ReadValue text :: rest =>
      let (st1, cbs) := onValue st text in
      let '(st2, cbs', r) := readLoop st1 rest in
      (st2, cbs ++ cbs', r)
  end.

(** [new Error(m)] *)
Definition newError (m : json) : JsError :=
  {| name := lit "Error";
     message := Json.toString (number_toString P) m |}.

(** The message thrown for a response that is not ok. *)
Definition errorDetail (r : Response) : json :=
  let default := Json.Str (lit "HTTP error! status: " ++ ofN (status r)) in
  match json_result r with
  | JsonResolve errorData =>
      match Json.getProp errorData (lit "detail") with
      | Json.Got d => if Json.truthy (number_truthy P) d then d else default
      | Json.Undefined => default
      | Json.Throws => default
      end
  | JsonReject _ => default
  end.

(** The [.then] handler. *)
Definition onResponse (r : Response) : list Callback * Settled :=
  if negb (ok r) then ([], Rejected (newError (errorDetail r)))
  else
    match body r with
    | None => ([], Rejected (newError (Json.Str (lit "Response body is null"))))
    | Some reads =>
        let '(_, cbs, s) := readLoop initial reads in (cbs, s)
    end.

Definition event (type : string) (msg : jsstring) : json :=
  Json.Obj [ (lit "type", Json.Str (lit type));
             (lit "role", Json.Str (lit "assistant"));
             (lit "message", Json.Str msg) ].

(** The [.catch] handler. *)
Definition onRejected (error : JsError) : list Callback :=
  if eqb (name error) (lit "AbortError") then
    (if onAborted
     then [OnAborted (event "aborted" (lit "Connection aborted by user"))]
     else [])
  else [OnError (event "error" (message error))].

(** All callbacks of one call, in order of invocation. *)
Definition sendMessageStream (f : FetchResult) : list Callback :=
  match f with
  | FetchPending => []
  | FetchReject e => onRejected e
  | FetchResolve r =>
      let (cbs, s) := onResponse r in
      match s with
      | Rejected e => cbs ++ onRejected e
      | _ => cbs
      end
  end.

End Session.

Arguments OnThinkingChunk {P} data.
Arguments OnStep {P} data.
Arguments OnDone {P} data.
Arguments OnError {P} data.
Arguments OnAborted {P} data.
Arguments FetchReject {P} e.
Arguments FetchPending {P}.
Arguments JsonReject {P} e.
Arguments JsonResolve {P} errorData.

End Stream.

(** ** A JSON reader to run scenarios with

    An instance of [Platform] whose numbers are integers.  It reads JSON
    texts whose numbers are integer literals and whose strings use the
    one-letter escapes, and rejects every other text (fractions and
    exponents included).  The theorems below hold for every [Platform];
    this one serves to evaluate the model on concrete frames. *)

Module IntJson.
Import JS.

Inductive token : Type :=
| LBrace | RBrace | LBracket | RBracket | Colon | Comma
| TNull | TTrue | TFalse
| TNum (z : Z)
| TStr (s : jsstring).

Definition isSpace (c : codeunit) : bool :=
  (N.eqb c 32 || N.eqb c 9 || N.eqb c 10 || N.eqb c 13)%N%bool.

Definition isDigit (c : codeunit) : bool :=
  (N.leb 48 c && N.leb c 57)%N%bool.

Definition unescape (c : codeunit) : option codeunit :=
  if N.eqb c 34 then Some 34%N            (* quote *)
  else if N.eqb c 92 then Some 92%N       (* backslash *)
  else if N.eqb c 47 then Some 47%N       (* slash *)
  else if N.eqb c 98 then Some 8%N        (* b *)
  else if N.eqb c 102 then Some 12%N      (* f *)
  else if N.eqb c 110 then Some 10%N      (* n *)
  else if N.eqb c 114 then Some 13%N      (* r *)
  else if N.eqb c 116 then Some 9%N       (* t *)
  else None.

(** The rest of a string literal after its opening quote. *)
Fixpoint lexString (s acc : jsstring) : option (jsstring * jsstring) :=
  match s with
  | [] => None
  | c :: rest =>
      if N.eqb c 34 then Some (rev acc, rest)
      else if N.eqb c 92 then
        match rest with
        | [] => None
        | e :: rest' =>
            match unescape e with
            | Some x => lexString rest' (x :: acc)
            | None => None
            end
        end
      else if N.ltb c 32 then None
      else lexString rest (c :: acc)
  end.

Fixpoint lexDigits (s : jsstring) (acc : N) : N * jsstring :=
  match s with
  | c :: rest =>
      if isDigit c then lexDigits rest (10 * acc + (c - 48))%N else (acc, s)
  | [] => (acc, [])
  end.

(** An integer literal: no leading zero, no fraction, no exponent. *)
Definition lexNumber (s : jsstring) : option (N * jsstring) :=
  match s with
  | c :: rest =>
      if isDigit c then
        if (N.eqb c 48 && match rest with d :: _ => isDigit d | [] => false end)%bool
        then None
        else
          let (n, rest') := lexDigits s 0 in
          match rest' with
          | d :: _ =>
              if (N.eqb d 46 || N.eqb d 101 || N.eqb d 69)%bool then None
              else Some (n, rest')
          | [] => Some (n, rest')
          end
      else None
  | [] => None
  end.

Fixpoint lex (fuel : nat) (s : jsstring) : option (list token) :=
  match fuel with
  | O => None
  | S fuel' =>
      let next (t : token) (rest : jsstring) :=
        option_map (cons t) (lex fuel' rest) in
      match s with
      | [] => Some []
      | c :: rest =>
          if isSpace c then lex fuel' rest
          else if N.eqb c 123 then next LBrace rest
          else if N.eqb c 125 then next RBrace rest
          else if N.eqb c 91 then next LBracket rest
          else if N.eqb c 93 then next RBracket rest
          else if N.eqb c 58 then next Colon rest
          else if N.eqb c 44 then next Comma rest
          else if N.eqb c 34 then
            match lexString rest [] with
            | Some (str, rest') => next (TStr str) rest'
            | None => None
            end
          else if N.eqb c 45 then
            match lexNumber rest with
            | Some (n, rest') => next (TNum (- Z.of_N n)) rest'
            | None => None
            end
          else if isDigit c then
            match lexNumber s with
            | Some (n, rest') => next (TNum (Z.of_N n)) rest'
            | None => None
            end
          else if startsWith s (lit "null") then next TNull (skipn 4 s)
          else if startsWith s (lit "true") then next TTrue (skipn 4 s)
          else if startsWith s (lit "false") then next TFalse (skipn 5 s)
          else None
      end
  end.

Fixpoint parseValue (fuel : nat) (ts : list token)
  : option (Json.value Z * list token) :=
  match fuel with
  | O => None
  | S fuel' =>
      match ts with
      | TNull :: r => Some (Json.Null, r)
      | TTrue :: r => Some (Json.Bool true, r)
      | TFalse :: r => Some (Json.Bool false, r)
      | TNum z :: r => Some (Json.Number z, r)
      | TStr s :: r => Some (Json.Str s, r)
      | LBracket :: RBracket :: r => Some (Json.Arr [], r)
      | LBracket :: r =>
          match parseValue fuel' r with
          | Some (v, r') => parseElements fuel' r' [v]
          | None => None
          end
      | LBrace :: RBrace :: r => Some (Json.Obj [], r)
      | LBrace :: TStr k :: Colon :: r =>
          match parseValue fuel' r with
          | Some (v, r') => parseMembers fuel' r' [(k, v)]
          | None => None
          end
      | _ => None
      end
  end
with parseElements (fuel : nat) (ts : list token) (acc : list (Json.value Z))
  : option (Json.value Z * list token) :=
  match fuel with
  | O => None
  | S fuel' =>
      match ts with
      | RBracket :: r => Some (Json.Arr (rev acc), r)
      | Comma :: r =>
          match parseValue fuel' r with
          | Some (v, r') => parseElements fuel' r' (v :: acc)
          | None => None
          end
      | _ => None
      end
  end
with parseMembers (fuel : nat) (ts : list token)
                  (props : list (jsstring * Json.value Z))
  : option (Json.value Z * list token) :=
  match fuel with
  | O => None
  | S fuel' =>
      match ts with
      | RBrace :: r => Some (Json.Obj props, r)
      | Comma :: TStr k :: Colon :: r =>
          match parseValue fuel' r with
          | Some (v, r') => parseMembers fuel' r' (Json.assign props k v)
          | None => None
          end
      | _ => None
      end
  end.

Definition parse (s : jsstring) : option (Json.value Z) :=
  match lex (S (length s)) s with
  | Some ts =>
      match parseValue (S (length ts)) ts with
      | Some (v, []) => Some v
      | _ => None
      end
  | None => None
  end.

Definition platform : Platform := {|
  number := Z;
  number_truthy := fun z => negb (Z.eqb z 0);
  number_toString := fun z => lit (NilZero.string_of_int (Z.to_int z));
  JSON_parse := parse
|}.

End IntJson.

(** ** handleSend: the callbacks of the chat panel *)

Module Panel.
Import JS.

Section HandleSend.

Variable P : Platform.
Let json : Type := Json.value (number P).

(** The event interfaces of the API module; their constant [type] and
    [role] fields are left out. *)
Record ThinkingChunkEvent : Type := { chunk : jsstring }.

Record StepEvent : Type := {
  step : number P;
  thinking : jsstring;
  action : json;
  step_success : bool;
  finished : bool
}.

Record DoneEvent : Type := {
  done_message : jsstring;
  steps : number P;
  done_success : bool
}.

Record ErrorEvent : Type := { error_message : jsstring }.

Record AbortedEvent : Type := { aborted_message : jsstring }.

(** The variables that the callbacks close over, and the timers of the
    window: [timers] holds the identifiers that [setTimeout] returned and
    that have neither fired nor been cleared. *)
Record State : Type := {
  thinkingList : list jsstring;
  actionsList : list json;
  currentThinkingText : jsstring;
  thinkingChunksBuffer : list jsstring;
  updateTimeoutId : option nat;
  timers : list nat;
  nextTimer : nat
}.

Definition initial : State := {|
  thinkingList := [];
  actionsList := [];
  currentThinkingText := [];
  thinkingChunksBuffer := [];
  updateTimeoutId := None;
  timers := [];
  nextTimer := 1
|}.

(** What a callback writes to the message on screen (its [setMessages]
    call).  [ThinkingUpdate] records the text that the flush adds,
    [chunksToAdd], next to the [currentThinking] that it shows. *)
Inductive Update : Type :=
| ThinkingUpdate (chunksToAdd currentThinking : jsstring)
| StepUpdate (thinking : list jsstring) (actions : list json)
             (steps : number P)
| DoneUpdate (content : jsstring) (success : bool) (steps : number P)
             (thinking : list jsstring) (actions : list json)
| ErrorUpdate (content : jsstring) (thinking : list jsstring)
              (actions : list json)
| AbortedUpdate (content : jsstring) (thinking : list jsstring)
                (actions : list json).

(** [updateTimeoutId = setTimeout(flushThinkingUpdate, 50)] *)
Definition setTimeout (st : State) : State := {|
  thinkingList := thinkingList st;
  actionsList := actionsList st;
  currentThinkingText := currentThinkingText st;
  thinkingChunksBuffer := thinkingChunksBuffer st;
  updateTimeoutId := Some (nextTimer st);
  timers := nextTimer st :: timers st;
  nextTimer := S (nextTimer st)
|}.

(** [clearTimeout(id)] *)
Definition clearTimeout (id : nat) (st : State) : State := {|
  thinkingList := thinkingList st;
  actionsList := actionsList st;
  currentThinkingText := currentThinkingText st;
  thinkingChunksBuffer := thinkingChunksBuffer st;
  updateTimeoutId := updateTimeoutId st;
  timers := filter (fun t => negb (Nat.eqb t id)) (timers st);
  nextTimer := nextTimer st
|}.

Definition flushThinkingUpdate (st : State) : State * list Update :=
  match thinkingChunksBuffer st with
  | _ :: _ =>
      let chunksToAdd := join (thinkingChunksBuffer st) in
      let text := currentThinkingText st ++ chunksToAdd in
      ({| thinkingList := thinkingList st;
          actionsList := actionsList st;
          currentThinkingText := text;
          thinkingChunksBuffer := [];
          updateTimeoutId := None;
          timers := timers st;
          nextTimer := nextTimer st |},
       [ThinkingUpdate chunksToAdd text])
  | [] =>
      ({| thinkingList := thinkingList st;
          actionsList := actionsList st;
          currentThinkingText := currentThinkingText st;
          thinkingChunksBuffer := [];
          updateTimeoutId := None;
          timers := timers st;
          nextTimer := nextTimer st |},
       [])
  end.

Definition onThinkingChunk (st : State) (event : ThinkingChunkEvent)
  : State * list Update :=
  let st1 := {|
    thinkingList := thinkingList st;
    actionsList := actionsList st;
    currentThinkingText := currentThinkingText st;
    thinkingChunksBuffer := thinkingChunksBuffer st ++ [chunk event];
    updateTimeoutId := updateTimeoutId st;
    timers := timers st;
    nextTimer := nextTimer st |} in
  match updateTimeoutId st1 with
  | None => (setTimeout st1, [])
  | Some _ => (st1, [])
  end.

Definition onStep (st : State) (event : StepEvent) : State * list Update :=
  let (st1, flushed) :=
    match updateTimeoutId st with
    | Some id => flushThinkingUpdate (clearTimeout id st)
    | None => (st, [])
    end in
  let stepThinking :=
    match thinking event with
    | _ :: _ => thinking event
    | [] => currentThinkingText st1
    end in
  let thinkingList' :=
    match stepThinking with
    | _ :: _ => thinkingList st1 ++ [stepThinking]
    | [] => thinkingList st1
    end in
  let actionsList' := actionsList st1 ++ [action event] in
  ({| thinkingList := thinkingList';
      actionsList := actionsList';
      currentThinkingText := [];
      thinkingChunksBuffer := thinkingChunksBuffer st1;
      updateTimeoutId := updateTimeoutId st1;
      timers := timers st1;
      nextTimer := nextTimer st1 |},
   flushed ++ [StepUpdate thinkingList' actionsList' (step event)]).

(** The first statement of the three terminal callbacks. *)
Definition clearPending (st : State) : State :=
  match updateTimeoutId st with
  | Some id => clearTimeout id st
  | None => st
  end.

Definition onDone (st : State) (event : DoneEvent) : State * list Update :=
  let st1 := clearPending st in
  (st1, [DoneUpdate (done_message event) (done_success event) (steps event)
                    (thinkingList st1) (actionsList st1)]).

Definition onError (st : State) (event : ErrorEvent) : State * list Update :=
  let st1 := clearPending st in
  (st1, [ErrorUpdate (lit "Error: " ++ error_message event)
                     (thinkingList st1) (actionsList st1)]).

Definition onAborted (st : State) (event : AbortedEvent)
  : State * list Update :=
  let st1 := clearPending st in
  let content :=
    match aborted_message event with
    | _ :: _ => aborted_message event
    | [] => lit "Chat aborted by user"
    end in
  (st1, [AbortedUpdate content (thinkingList st1) (actionsList st1)]).

(** What reaches the panel: the five callbacks, and the window running a
    timeout. *)
Inductive Input : Type :=
| Chunk (event : ThinkingChunkEvent)
| Step (event : StepEvent)
| Done (event : DoneEvent)
| Error (event : ErrorEvent)
| Aborted (event : AbortedEvent)
| Timeout (id : nat).

(** A timeout runs its function only if it is still pending. *)
Definition onTimeout (st : State) (id : nat) : State * list Update :=
  if existsb (Nat.eqb id) (timers st)
  then flushThinkingUpdate (clearTimeout id st)
  else (st, []).

Definition handle (st : State) (i : Input) : State * list Update :=
  match i with
  | Chunk e => onThinkingChunk st e
  | Step e => onStep st e
  | Done e => onDone st e
  | Error e => onError st e
  | Aborted e => onAborted st e
  | Timeout id => onTimeout st id
  end.

Fixpoint run (st : State) (inputs : list Input) : State * list Update :=
  match inputs with
  | [] => (st, [])
  | i :: rest =>
      let (st1, out) := handle st i in
      let (st2, out') := run st1 rest in
      (st2, out ++ out')
  end.

(** The thinking text that reached the screen, and the text that arrived. *)
Definition shownText (out : list Update) : jsstring :=
  concat (map (fun u => match u with
                        | ThinkingUpdate chunksToAdd _ => chunksToAdd
                        | _ => []
                        end) out).

Definition arrivedText (inputs : list Input) : jsstring :=
  concat (map (fun i => match i with
                        | Chunk e => chunk e
                        | _ => []
                        end) inputs).

End HandleSend.

Arguments Chunk {P} event.
Arguments Step {P} event.
Arguments Done {P} event.
Arguments Error {P} event.
Arguments Aborted {P} event.
Arguments Timeout {P} id.

End Panel.

(** * Properties *)

(** ** Strings and lines *)

Module JSFacts.
Import JS.

Lemma eqb_eq (a b : jsstring) : eqb a b = true <-> a = b.
Proof.
  revert b; induction a as [|x a IH]; intros [|y b]; simpl;
    try (split; (reflexivity || discriminate)).
  rewrite andb_true_iff, N.eqb_eq, IH.
  split; [intros [-> ->]; reflexivity | intros E; inversion E; auto].
Qed.

Lemma eqb_refl (a : jsstring) : eqb a a = true.
Proof. apply eqb_eq; reflexivity. Qed.

Lemma eqb_neq (a b : jsstring) : eqb a b = false <-> a <> b.
Proof.
  rewrite <- eqb_eq. destruct (eqb a b); split; congruence.
Qed.

Lemma startsWith_app (p s : jsstring) : startsWith (p ++ s) p = true.
Proof.
  induction p as [|c p IH]; simpl; [reflexivity|].
  rewrite N.eqb_refl; exact IH.
Qed.

Lemma slice_app (p s : jsstring) : slice (p ++ s) (length p) = s.
Proof. induction p; simpl; auto. Qed.

(** The complete lines of a text and what follows the last line feed:
    the two halves of [pop (split LF s)]. *)
Fixpoint cut (s : jsstring) : list jsstring * jsstring :=
  match s with
  | [] => ([], [])
  | c :: s' =>
      let (ls, r) := cut s' in
      if N.eqb c LF then ([] :: ls, r)
      else match ls with
           | [] => ([], c :: r)
           | l :: ls' => ((c :: l) :: ls', r)
           end
  end.

Lemma pop_snoc (A : Type) (l : list A) (x : A) : pop (l ++ [x]) = (l, Some x).
Proof.
  unfold pop. rewrite rev_app_distr. simpl. rewrite rev_involutive.
  reflexivity.
Qed.

Lemma split_cut (s : jsstring) :
  split LF s = fst (cut s) ++ [snd (cut s)].
Proof.
  induction s as [|c s IH]; simpl; [reflexivity|].
  rewrite IH. destruct (cut s) as [ls r]; simpl.
  destruct (N.eqb c LF); simpl; [reflexivity|].
  destruct ls; reflexivity.
Qed.

Lemma pop_split (s : jsstring) :
  pop (split LF s) = (fst (cut s), Some (snd (cut s))).
Proof. rewrite split_cut. apply pop_snoc. Qed.

Lemma orEmpty_Some (s : jsstring) : orEmpty (Some s) = s.
Proof. destruct s; reflexivity. Qed.

Lemma cut_app (a b : jsstring) :
  cut (a ++ b) =
  (fst (cut a) ++ fst (cut (snd (cut a) ++ b)),
   snd (cut (snd (cut a) ++ b))).
Proof.
  induction a as [|c a IH]; simpl.
  - destruct (cut b); reflexivity.
  - rewrite IH. destruct (cut a) as [l1 r1]; simpl.
    destruct (N.eqb c LF) eqn:E; simpl.
    + reflexivity.
    + destruct l1 as [|l l1]; simpl.
      * rewrite E. destruct (cut (r1 ++ b)) as [l2 r2]; simpl.
        destruct l2; reflexivity.
      * reflexivity.
Qed.

(** A text without line feed is all remainder. *)
Lemma cut_no_LF (s : jsstring) : ~ In LF s -> cut s = ([], s).
Proof.
  induction s as [|c s IH]; simpl; intros H; [reflexivity|].
  rewrite IH by tauto.
  destruct (N.eqb c LF) eqn:E; [|reflexivity].
  apply N.eqb_eq in E. exfalso; apply H; left; exact E.
Qed.

Lemma cut_rest_no_LF (s : jsstring) : ~ In LF (snd (cut s)).
Proof.
  induction s as [|c s IH]; simpl; [tauto|].
  destruct (cut s) as [ls r]; simpl in *.
  destruct (N.eqb c LF) eqn:E; simpl; [exact IH|].
  destruct ls; simpl; [|exact IH].
  intros [H|H]; [|tauto].
  subst c. discriminate E.
Qed.

Lemma cut_rest (s : jsstring) : cut (snd (cut s)) = ([], snd (cut s)).
Proof. apply cut_no_LF, cut_rest_no_LF. Qed.

(** Lines put back on the wire, each followed by its line feed. *)
Definition unlines (ls : list jsstring) : jsstring :=
  concat (map (fun l => l ++ [LF]) ls).

Lemma cut_line (l s : jsstring) :
  ~ In LF l -> cut (l ++ LF :: s) = (l :: fst (cut s), snd (cut s)).
Proof.
  induction l as [|c l IH]; simpl; intros H.
  - destruct (cut s); reflexivity.
  - rewrite IH by tauto. simpl.
    destruct (N.eqb c LF) eqn:E; [|reflexivity].
    apply N.eqb_eq in E. exfalso; apply H; left; exact E.
Qed.

Lemma cut_unlines (ls : list jsstring) (tail : jsstring) :
  Forall (fun l => ~ In LF l) ls -> ~ In LF tail ->
  cut (unlines ls ++ tail) = (ls, tail).
Proof.
  intros Hls Ht. induction Hls as [|l ls Hl _ IH]; simpl.
  - apply cut_no_LF, Ht.
  - unfold unlines in *; simpl. rewrite <- !app_assoc. simpl.
    rewrite (cut_line l _ Hl), IH. reflexivity.
Qed.

End JSFacts.

(** ** The read loop, seen from the whole text *)

Module StreamFacts.
Import JS JSFacts Stream.

(** The lines that [split] and [pop] make of a text: the complete ones,
    and the part after the last line feed. *)
Definition completeLines (text : jsstring) : list jsstring :=
  fst (pop (split LF text)).

Definition trailing (text : jsstring) : jsstring :=
  orEmpty (snd (pop (split LF text))).

(** The text that the reads deliver before the loop ends, and how the
    loop ends. *)
Fixpoint received (reads : list ReadResult) : jsstring :=
  match reads with
  | ReadValue text :: rest => text ++ received rest
  | _ => []
  end.

Fixpoint outcome (reads : list ReadResult) : Settled :=
  match reads with
  | [] => Pending
  | ReadDone :: _ => Fulfilled
  | ReadReject e :: _ => Rejected e
  | ReadValue _ :: rest => outcome rest
  end.

Lemma completeLines_cut (text : jsstring) :
  completeLines text = fst (cut text).
Proof. unfold completeLines. rewrite pop_split. reflexivity. Qed.

Lemma trailing_cut (text : jsstring) : trailing text = snd (cut text).
Proof. unfold trailing. rewrite pop_split. apply orEmpty_Some. Qed.

Lemma received_values (chunks : list jsstring) (tail : list ReadResult) :
  received (map ReadValue chunks ++ tail) = concat chunks ++ received tail.
Proof.
  induction chunks as [|c cs IH]; simpl; [reflexivity|].
  rewrite IH, app_assoc. reflexivity.
Qed.

Lemma outcome_values (chunks : list jsstring) (tail : list ReadResult) :
  outcome (map ReadValue chunks ++ tail) = outcome tail.
Proof. induction chunks; simpl; auto. Qed.

Section Facts.

Variable P : Platform.
Variable onAborted : bool.

Lemma processLines_app (et : jsstring) (l1 l2 : list jsstring) :
  processLines P onAborted et (l1 ++ l2) =
  (fst (processLines P onAborted
          (fst (processLines P onAborted et l1)) l2),
   snd (processLines P onAborted et l1) ++
   snd (processLines P onAborted
          (fst (processLines P onAborted et l1)) l2)).
Proof.
  revert et; induction l1 as [|l l1 IH]; intros et; simpl.
  - destruct (processLines P onAborted et l2); reflexivity.
  - destruct (processLine P onAborted et l) as [et1 c1].
    rewrite IH.
    destruct (processLines P onAborted et1 l1) as [et2 c2]; simpl.
    destruct (processLines P onAborted et2 l2) as [et3 c3]; simpl.
    rewrite app_assoc. reflexivity.
Qed.

Lemma onValue_cut (st : Parser) (text : jsstring) :
  onValue P onAborted st text =
  ({| buffer := snd (cut (buffer st ++ text));
      eventType := fst (processLines P onAborted (eventType st)
                          (fst (cut (buffer st ++ text)))) |},
   snd (processLines P onAborted (eventType st)
          (fst (cut (buffer st ++ text))))).
Proof.
  unfold onValue. rewrite pop_split, orEmpty_Some.
  destruct (processLines P onAborted (eventType st)
              (fst (cut (buffer st ++ text)))); reflexivity.
Qed.

(** The loop acts on the complete lines of the text received, whatever
    the reads that brought it. *)
Lemma readLoop_text (reads : list ReadResult) (st : Parser) :
  ~ In LF (buffer st) ->
  readLoop P onAborted st reads =
  ({| buffer := snd (cut (buffer st ++ received reads));
      eventType := fst (processLines P onAborted (eventType st)
                          (fst (cut (buffer st ++ received reads)))) |},
   snd (processLines P onAborted (eventType st)
          (fst (cut (buffer st ++ received reads)))),
   outcome reads).
Proof.
  revert st; induction reads as [|r reads IH]; intros [b et] H; simpl in *.
  - rewrite app_nil_r, (cut_no_LF b H). reflexivity.
  - destruct r as [text| |e]; simpl;
      try (rewrite app_nil_r, (cut_no_LF b H); reflexivity).
    rewrite onValue_cut. simpl.
    rewrite IH by (simpl; apply cut_rest_no_LF). simpl.
    rewrite app_assoc, (cut_app (b ++ text)). simpl.
    rewrite processLines_app. reflexivity.
Qed.

Lemma readLoop_initial (reads : list ReadResult) :
  readLoop P onAborted initial reads =
  ({| buffer := trailing (received reads);
      eventType := fst (processLines P onAborted (lit "message")
                          (completeLines (received reads))) |},
   snd (processLines P onAborted (lit "message")
          (completeLines (received reads))),
   outcome reads).
Proof.
  rewrite readLoop_text by (simpl; tauto).
  rewrite completeLines_cut, trailing_cut. reflexivity.
Qed.

(** Lines as they are written on the wire. *)
Definition eventLine (raw : jsstring) : jsstring := lit "event: " ++ raw.
Definition dataLine (payload : jsstring) : jsstring := lit "data: " ++ payload.

Lemma processLine_event (et raw : jsstring) :
  processLine P onAborted et (eventLine raw) = (trim raw, []).
Proof.
  unfold processLine, eventLine. rewrite startsWith_app.
  change 7 with (length (lit "event: ")). rewrite slice_app. reflexivity.
Qed.

Lemma processLine_data (et payload : jsstring) :
  processLine P onAborted et (dataLine payload) =
  (et, match JSON_parse P payload with
       | Some data => dispatch P onAborted et data
       | None => []
       end).
Proof.
  unfold processLine, dataLine.
  replace (startsWith (lit "data: " ++ payload) (lit "event: "))
    with false by reflexivity.
  rewrite startsWith_app.
  change 6 with (length (lit "data: ")). rewrite slice_app.
  destruct (JSON_parse P payload); reflexivity.
Qed.

Definition hasLF (s : jsstring) : bool := existsb (N.eqb LF) s.

Lemma hasLF_false (s : jsstring) : hasLF s = false -> ~ In LF s.
Proof.
  unfold hasLF. intros H Hin.
  assert (existsb (N.eqb LF) s = true) as E.
  { apply existsb_exists. exists LF. split; [exact Hin | apply N.eqb_refl]. }
  congruence.
Qed.

Lemma noLF_lines (ls : list jsstring) :
  forallb (fun l => negb (hasLF l)) ls = true ->
  Forall (fun l => ~ In LF l) ls.
Proof.
  rewrite forallb_forall, Forall_forall. intros H l Hl.
  apply hasLF_false. specialize (H l Hl).
  destruct (hasLF l); [discriminate | reflexivity].
Qed.

(** A session over a response that is ok, given by the reads of its
    body. *)
Definition streaming (status : N) (jr : JsonResult P)
    (reads : list ReadResult) : FetchResult P :=
  FetchResolve {| status := status; json_result := jr; body := Some reads |}.

Lemma sendMessageStream_streaming status jr reads reads' :
  received reads = received reads' ->
  outcome reads = outcome reads' ->
  sendMessageStream onAborted (streaming status jr reads) =
  sendMessageStream onAborted (streaming status jr reads').
Proof.
  intros Hr Ho. unfold sendMessageStream, onResponse, streaming. simpl.
  destruct (negb _); [reflexivity|].
  rewrite !readLoop_initial, Hr, Ho. reflexivity.
Qed.

(** C4. However the text of the stream is cut into chunks, also in the
    middle of a line, the read loop ends in the same state, with the same
    callbacks in the same order and the same outcome, as when the whole
    text comes in one chunk, and so does the session around it; the lines
    acted on are the complete lines of the whole text (split on line
    feed), and the incomplete last line stays in [buffer]. *)
Theorem chunking_is_irrelevant
    (chunks : list jsstring) (tail : list ReadResult)
    (status : N) (jr : JsonResult P) :
  readLoop P onAborted initial (map ReadValue chunks ++ tail) =
  readLoop P onAborted initial (ReadValue (concat chunks) :: tail)
  /\ sendMessageStream onAborted
       (streaming status jr (map ReadValue chunks ++ tail)) =
     sendMessageStream onAborted
       (streaming status jr (ReadValue (concat chunks) :: tail))
  /\ readLoop P onAborted initial (map ReadValue chunks) =
     ({| buffer := trailing (concat chunks);
         eventType := fst (processLines P onAborted (lit "message")
                             (completeLines (concat chunks))) |},
      snd (processLines P onAborted (lit "message")
             (completeLines (concat chunks))),
      Pending).
Proof.
  assert (received (map ReadValue chunks ++ tail) =
          received (ReadValue (concat chunks) :: tail)) as Hr
    by (rewrite received_values; reflexivity).
  assert (outcome (map ReadValue chunks ++ tail) =
          outcome (ReadValue (concat chunks) :: tail)) as Ho
    by (rewrite outcome_values; reflexivity).
  split; [|split].
  - rewrite !readLoop_initial, Hr, Ho. reflexivity.
  - apply sendMessageStream_streaming; assumption.
  - rewrite readLoop_initial.
    rewrite <- (app_nil_r (map ReadValue chunks)).
    rewrite received_values, outcome_values. simpl.
    rewrite app_nil_r. reflexivity.
Qed.

(** C5. A [data: ] line whose payload [JSON.parse] rejects invokes no
    callback and leaves the event name as it was; the lines around it are
    processed as if it were not there, and a session whose text contains
    such a line invokes the callbacks, and ends, exactly as the session
    whose text lacks it. *)
Theorem malformed_data_line_is_dropped
    (et payload tl : jsstring) (pre post : list jsstring)
    (status : N) (jr : JsonResult P) (reads reads' : list ReadResult)
    (Hbad : JSON_parse P payload = None)
    (Hpayload : hasLF payload = false)
    (Hpre : forallb (fun l => negb (hasLF l)) pre = true)
    (Hpost : forallb (fun l => negb (hasLF l)) post = true)
    (Htl : hasLF tl = false)
    (Hreads : received reads = unlines (pre ++ dataLine payload :: post) ++ tl)
    (Hreads' : received reads' = unlines (pre ++ post) ++ tl)
    (Hend : outcome reads = outcome reads') :
  processLine P onAborted et (dataLine payload) = (et, [])
  /\ processLines P onAborted et (pre ++ dataLine payload :: post) =
     processLines P onAborted et (pre ++ post)
  /\ sendMessageStream onAborted (streaming status jr reads) =
     sendMessageStream onAborted (streaming status jr reads').
Proof.
  assert (processLine P onAborted et (dataLine payload) = (et, [])) as H1
    by (rewrite processLine_data, Hbad; reflexivity).
  assert (forall e, processLines P onAborted e
                      (pre ++ dataLine payload :: post) =
                    processLines P onAborted e (pre ++ post)) as H2.
  { intros e. rewrite !processLines_app. simpl.
    rewrite processLine_data, Hbad. simpl.
    destruct (processLines P onAborted
                (fst (processLines P onAborted e pre)) post).
    reflexivity. }
  split; [exact H1 | split; [apply H2 |]].
  unfold sendMessageStream, onResponse, streaming. simpl.
  destruct (negb _); [reflexivity|].
  rewrite !readLoop_initial, Hend, !completeLines_cut.
  rewrite Hreads, Hreads'.
  apply noLF_lines in Hpre. apply noLF_lines in Hpost.
  apply hasLF_false in Hpayload. apply hasLF_false in Htl.
  assert (~ In LF (dataLine payload)) as Hd.
  { unfold dataLine. intros Hin. apply in_app_or in Hin.
    destruct Hin as [Hin|Hin]; [|tauto].
    vm_compute in Hin. intuition discriminate. }
  rewrite !cut_unlines; auto.
  - simpl. rewrite H2. reflexivity.
  - apply Forall_app; auto.
  - apply Forall_app; split; auto.
Qed.

Lemma received_snoc (chunks : list jsstring) (text : jsstring)
    (rest : list ReadResult) :
  received (map ReadValue (chunks ++ [text]) ++ ReadDone :: rest) =
  concat chunks ++ text.
Proof.
  rewrite received_values, concat_app. simpl.
  rewrite !app_nil_r. reflexivity.
Qed.

(** C10. When the reader reports done, text in [buffer] that no line feed
    has closed is never processed: a session that receives such a text
    [tail] last invokes the callbacks of the session that does not receive
    it, and the loop leaves it in [buffer]; the same text closed by a line
    feed would have been processed as a line. *)
Theorem unterminated_last_line_is_discarded
    (chunks : list jsstring) (tail : jsstring) (rest : list ReadResult)
    (status : N) (jr : JsonResult P)
    (Htail : hasLF tail = false) :
  let without :=
    readLoop P onAborted initial (map ReadValue chunks ++ ReadDone :: rest) in
  let st := fst (fst without) in
  let cbs := snd (fst without) in
  readLoop P onAborted initial
    (map ReadValue (chunks ++ [tail]) ++ ReadDone :: rest) =
  ({| buffer := buffer st ++ tail; eventType := eventType st |},
   cbs, Fulfilled)
  /\ sendMessageStream onAborted
       (streaming status jr
          (map ReadValue (chunks ++ [tail]) ++ ReadDone :: rest)) =
     sendMessageStream onAborted
       (streaming status jr (map ReadValue chunks ++ ReadDone :: rest))
  /\ readLoop P onAborted initial
       (map ReadValue (chunks ++ [tail ++ [LF]]) ++ ReadDone :: rest) =
     ({| buffer := [];
         eventType :=
           fst (processLine P onAborted (eventType st) (buffer st ++ tail)) |},
      cbs ++ snd (processLine P onAborted (eventType st) (buffer st ++ tail)),
      Fulfilled).
Proof.
  apply hasLF_false in Htail.
  assert (~ In LF (snd (cut (concat chunks)) ++ tail)) as Hno.
  { intros Hin. apply in_app_or in Hin. destruct Hin as [Hin|Hin];
      [exact (cut_rest_no_LF _ Hin) | tauto]. }
  assert (cut (concat chunks ++ tail) =
          (fst (cut (concat chunks)), snd (cut (concat chunks)) ++ tail))
    as Hcut.
  { rewrite cut_app, (cut_no_LF _ Hno). simpl. rewrite app_nil_r.
    reflexivity. }
  assert (cut (concat chunks ++ tail ++ [LF]) =
          (fst (cut (concat chunks)) ++ [snd (cut (concat chunks)) ++ tail],
           [])) as Hcut'.
  { rewrite cut_app, app_assoc, (cut_line _ [] Hno). reflexivity. }
  assert (received (map ReadValue chunks ++ ReadDone :: rest) =
          concat chunks) as Hrec
    by (rewrite received_values; simpl; apply app_nil_r).
  assert (forall l, outcome (map ReadValue l ++ ReadDone :: rest) =
                    Fulfilled) as Hout
    by (intros l; rewrite outcome_values; reflexivity).
  cbv zeta. rewrite !readLoop_initial, !received_snoc, !Hout, Hrec.
  rewrite !completeLines_cut, !trailing_cut. simpl.
  split; [|split].
  - rewrite Hcut. reflexivity.
  - unfold sendMessageStream, onResponse, streaming. simpl.
    destruct (negb _); [reflexivity|].
    rewrite !readLoop_initial, received_snoc, !Hout, Hrec.
    rewrite !completeLines_cut, Hcut. reflexivity.
  - rewrite Hcut'. simpl. rewrite processLines_app. simpl.
    destruct (processLine P onAborted _ _) as [et' c]. simpl.
    rewrite app_nil_r. reflexivity.
Qed.

(** The current event name after some lines, in the words of the
    protocol: what the most recent [event: ] line set, or [first] where
    there is none. *)
Definition isEventLine (line : jsstring) : bool :=
  startsWith line (lit "event: ").

Definition currentEventNameFrom (first : jsstring) (lines : list jsstring)
  : jsstring :=
  match find isEventLine (rev lines) with
  | Some line => trim (slice line 7)
  | None => first
  end.

Definition currentEventName (lines : list jsstring) : jsstring :=
  currentEventNameFrom (lit "message") lines.

(** The callbacks by event name, as a table; [onAborted] is in it only if
    the caller passed it. *)
Definition callbackTable
  : list (jsstring * (Json.value (number P) -> Callback P)) :=
  [ (lit "thinking_chunk", @OnThinkingChunk P);
    (lit "step", @OnStep P);
    (lit "done", @OnDone P) ] ++
  (if onAborted then [ (lit "aborted", @OnAborted P) ] else []) ++
  [ (lit "error", @OnError P) ].

Definition callbackFor (name : jsstring) (data : Json.value (number P))
  : list (Callback P) :=
  match find (fun entry => eqb (fst entry) name) callbackTable with
  | Some (_, callback) => [callback data]
  | None => []
  end.

Lemma eqb_sym (a b : jsstring) : eqb a b = eqb b a.
Proof.
  destruct (eqb a b) eqn:E; symmetry.
  - apply eqb_eq in E. subst. apply eqb_refl.
  - apply eqb_neq. apply eqb_neq in E. congruence.
Qed.

Lemma dispatch_table (name : jsstring) (data : Json.value (number P)) :
  dispatch P onAborted name data = callbackFor name data.
Proof.
  unfold dispatch, callbackFor, callbackTable.
  rewrite !(eqb_sym name).
  destruct onAborted; cbn [find app fst].
  - destruct (eqb (lit "thinking_chunk") name); [reflexivity|].
    destruct (eqb (lit "step") name); [reflexivity|].
    destruct (eqb (lit "done") name); [reflexivity|].
    destruct (eqb (lit "aborted") name); [reflexivity|].
    destruct (eqb (lit "error") name); reflexivity.
  - destruct (eqb (lit "thinking_chunk") name); [reflexivity|].
    destruct (eqb (lit "step") name); [reflexivity|].
    destruct (eqb (lit "done") name); [reflexivity|].
    destruct (eqb (lit "aborted") name) eqn:E.
    + apply eqb_eq in E. subst name. reflexivity.
    + destruct (eqb (lit "error") name); reflexivity.
Qed.

Lemma find_snoc (A : Type) (f : A -> bool) (l : list A) (x : A) :
  find f (l ++ [x]) =
  match find f l with
  | Some y => Some y
  | None => if f x then Some x else None
  end.
Proof.
  induction l as [|a l IH]; simpl; [reflexivity|].
  destruct (f a); [reflexivity | exact IH].
Qed.

Lemma eventType_after (et : jsstring) (lines : list jsstring) :
  fst (processLines P onAborted et lines) = currentEventNameFrom et lines.
Proof.
  revert et; induction lines as [|l ls IH]; intros et; [reflexivity|].
  simpl. destruct (processLine P onAborted et l) as [et1 c1] eqn:E.
  specialize (IH et1).
  destruct (processLines P onAborted et1 ls) as [et2 c2]. simpl in *.
  rewrite IH. unfold currentEventNameFrom. simpl. rewrite find_snoc.
  destruct (find isEventLine (rev ls)); [reflexivity|].
  unfold processLine in E. unfold isEventLine.
  destruct (startsWith l (lit "event: ")).
  - inversion E; reflexivity.
  - destruct (startsWith l (lit "data: "));
      [destruct (JSON_parse P _)|]; inversion E; reflexivity.
Qed.

(** What a [data: ] line with this payload invokes under an event name. *)
Definition decoded (name payload : jsstring) : list (Callback P) :=
  match JSON_parse P payload with
  | Some data => callbackFor name data
  | None => []
  end.

Lemma processLines_data (et : jsstring) (payloads : list jsstring) :
  processLines P onAborted et (map dataLine payloads) =
  (et, concat (map (decoded et) payloads)).
Proof.
  induction payloads as [|p ps IH]; simpl; [reflexivity|].
  rewrite processLine_data, IH. unfold decoded at 2.
  destruct (JSON_parse P p); [rewrite dispatch_table|]; reflexivity.
Qed.

(** C8. The callback that a complete [data: ] line invokes (once its
    payload is parsed) is the one that the table gives for the current
    event name: the trimmed text of the most recent [event: ] line before
    it, or "message" when there is none; a name outside the table, such as
    "message", invokes nothing.  A name set by an [event: ] line serves all
    the [data: ] lines that follow it. *)
Theorem event_name_selects_callback
    (pre : list jsstring) (raw payload : jsstring)
    (payloads : list jsstring) :
  processLines P onAborted (lit "message") (pre ++ [dataLine payload]) =
  (currentEventName pre,
   snd (processLines P onAborted (lit "message") pre) ++
   decoded (currentEventName pre) payload)
  /\ processLines P onAborted (lit "message")
       (pre ++ eventLine raw :: map dataLine payloads) =
     (trim raw,
      snd (processLines P onAborted (lit "message") pre) ++
      concat (map (decoded (trim raw)) payloads))
  /\ processLines P onAborted (lit "message") (map dataLine payloads) =
     (lit "message", []).
Proof.
  split; [|split].
  - rewrite processLines_app. cbn [processLines].
    rewrite processLine_data. cbn [fst snd].
    rewrite !eventType_after. fold (currentEventName pre).
    unfold decoded.
    destruct (JSON_parse P payload);
      [rewrite dispatch_table|]; repeat rewrite app_nil_r; reflexivity.
  - rewrite processLines_app. cbn [processLines].
    rewrite processLine_event, processLines_data. reflexivity.
  - rewrite processLines_data. f_equal.
    induction payloads as [|p ps IH]; simpl; [reflexivity|].
    rewrite IH, app_nil_r. unfold decoded.
    destruct (JSON_parse P p); [|reflexivity].
    unfold callbackFor, callbackTable. destruct onAborted; reflexivity.
Qed.

(** *** Terminal events *)

Definition isTerminal (c : Callback P) : bool :=
  match c with
  | OnDone _ | OnError _ | OnAborted _ => true
  | OnThinkingChunk _ | OnStep _ => false
  end.

(** At most one terminal callback, and nothing after it. *)
Fixpoint terminalLast (calls : list (Callback P)) : bool :=
  match calls with
  | [] => true
  | c :: rest =>
      if isTerminal c
      then match rest with [] => true | _ :: _ => false end
      else terminalLast rest
  end.

(** The callbacks of the frames of a session: those of the complete lines
    of the text that the body delivered. *)
Definition streamCallbacks (f : FetchResult P) : list (Callback P) :=
  match f with
  | FetchResolve r =>
      if ok r then
        match body r with
        | Some reads =>
            snd (processLines P onAborted (lit "message")
                   (completeLines (received reads)))
        | None => []
        end
      else []
  | _ => []
  end.

(** The error that reaches the [.catch] handler, if one does. *)
Definition failure (f : FetchResult P) : option JsError :=
  match f with
  | FetchPending => None
  | FetchReject e => Some e
  | FetchResolve r =>
      if ok r then
        match body r with
        | Some reads =>
            match outcome reads with
            | Rejected e => Some e
            | _ => None
            end
        | None => Some (newError P (Json.Str (lit "Response body is null")))
        end
      else Some (newError P (errorDetail r))
  end.

Definition failureCallbacks (f : FetchResult P) : list (Callback P) :=
  match failure f with
  | Some e => onRejected P onAborted e
  | None => []
  end.

(** The sessions in which the frames leave the terminal event to the end:
    no terminal frame before a failure, or one terminal frame, the last
    callback of the stream, and no failure after it. *)
Definition wellTerminated (f : FetchResult P) : bool :=
  terminalLast (streamCallbacks f) &&
  (negb (existsb isTerminal (streamCallbacks f)) ||
   match failure f with None => true | Some _ => false end).

Lemma sendMessageStream_parts (f : FetchResult P) :
  sendMessageStream onAborted f = streamCallbacks f ++ failureCallbacks f.
Proof.
  destruct f as [r|e|]; try reflexivity.
  unfold sendMessageStream, onResponse, failureCallbacks, failure,
    streamCallbacks.
  destruct (ok r); simpl; [|reflexivity].
  destruct (body r) as [reads|]; [|reflexivity].
  rewrite readLoop_initial.
  destruct (outcome reads); try reflexivity; symmetry; apply app_nil_r.
Qed.

Lemma onRejected_one (e : JsError) :
  length (onRejected P onAborted e) <= 1 /\
  forallb isTerminal (onRejected P onAborted e) = true.
Proof.
  unfold onRejected.
  destruct (eqb (name e) (lit "AbortError")); [destruct onAborted|];
    simpl; split; auto.
Qed.

Lemma failureCallbacks_one (f : FetchResult P) :
  length (failureCallbacks f) <= 1 /\
  forallb isTerminal (failureCallbacks f) = true.
Proof.
  unfold failureCallbacks. destruct (failure f).
  - apply onRejected_one.
  - simpl; split; auto.
Qed.

Lemma terminalLast_app_quiet (a b : list (Callback P)) :
  existsb isTerminal a = false -> terminalLast (a ++ b) = terminalLast b.
Proof.
  induction a as [|c a IH]; simpl; [reflexivity|].
  destruct (isTerminal c); simpl; [discriminate | exact IH].
Qed.

Lemma terminalLast_short (b : list (Callback P)) :
  length b <= 1 -> terminalLast b = true.
Proof.
  destruct b as [|c [|d b]]; simpl; intros H; try reflexivity.
  - destruct (isTerminal c); reflexivity.
  - lia.
Qed.

(** C1, amended.  The callbacks of a session are those of its frames, in
    the order of the stream, followed by what the failure handler invokes:
    at most one callback, a terminal one.  No guard stops the frames after
    a terminal frame.  So a session observes at most one terminal
    callback, as its last callback, when its frames leave the terminal
    event to the end ([wellTerminated]). *)
Theorem terminal_event_last_when_well_terminated (f : FetchResult P) :
  sendMessageStream onAborted f = streamCallbacks f ++ failureCallbacks f
  /\ length (failureCallbacks f) <= 1
  /\ forallb isTerminal (failureCallbacks f) = true
  /\ (wellTerminated f = true ->
      terminalLast (sendMessageStream onAborted f) = true).
Proof.
  destruct (failureCallbacks_one f) as [Hlen Hterm].
  repeat split; auto using sendMessageStream_parts.
  unfold wellTerminated. rewrite sendMessageStream_parts.
  intros H. apply andb_true_iff in H. destruct H as [Hlast H].
  apply orb_true_iff in H. destruct H as [H|H].
  - rewrite terminalLast_app_quiet.
    + apply terminalLast_short, Hlen.
    + destruct (existsb isTerminal (streamCallbacks f));
        [discriminate | reflexivity].
  - unfold failureCallbacks. destruct (failure f); [discriminate|].
    rewrite app_nil_r. exact Hlast.
Qed.

(** *** Responses that are not ok *)






End Facts.

(** *** Local aborts *)

Section Abort.

Variable P : Platform.

(** The event that the [.catch] handler makes up for an abort. *)
Definition abortedByUser : Callback P :=
  OnAborted (event P "aborted" (lit "Connection aborted by user")).

Definition isError (c : Callback P) : bool :=
  match c with OnError _ => true | _ => false end.

Definition isAborted (c : Callback P) : bool :=
  match c with OnAborted _ => true | _ => false end.

Lemma onRejected_abort (onAborted : bool) (e : JsError) :
  name e = lit "AbortError" ->
  onRejected P onAborted e = if onAborted then [abortedByUser] else [].
Proof. intros H. unfold onRejected. rewrite H. reflexivity. Qed.

Lemma streaming_rejected (onAborted : bool) (status : N)
    (jr : JsonResult P) (reads : list ReadResult) (e : JsError) :
  ok (P:=P) {| status := status; json_result := jr; body := Some reads |}
    = true ->
  outcome reads = Rejected e ->
  sendMessageStream onAborted (streaming status jr reads) =
  streamCallbacks onAborted (streaming status jr reads) ++
  onRejected P onAborted e.
Proof.
  intros Hok Hout. rewrite sendMessageStream_parts.
  unfold failureCallbacks, failure, streaming. rewrite Hok. simpl.
  rewrite Hout. reflexivity.
Qed.

(** C7, amended.  When the caller passed [onAborted] and the request, or
    a read of the body, fails with an AbortError, the failure handler
    invokes [onAborted] once, with the message "Connection aborted by
    user", after the callbacks of the frames read so far, and it does not
    invoke [onError]; when the abort comes before any frame, that is the
    only callback of the session. *)
Theorem local_abort_is_one_aborted_event
    (e : JsError) (status : N) (jr : JsonResult P)
    (reads : list ReadResult)
    (Hname : name e = lit "AbortError")
    (Hok : (N.leb 200 status && N.leb status 299)%bool = true)
    (Hout : outcome reads = Rejected e) :
  sendMessageStream true (FetchReject e) = [abortedByUser]
  /\ sendMessageStream true (streaming status jr [ReadReject e]) =
     [abortedByUser]
  /\ sendMessageStream true (streaming status jr reads) =
     streamCallbacks true (streaming status jr reads) ++ [abortedByUser]
  /\ existsb isError (sendMessageStream true (streaming status jr reads)) =
     existsb isError (streamCallbacks true (streaming status jr reads)).
Proof.
  pose proof (onRejected_abort true e Hname) as Hrej. simpl in Hrej.
  split; [exact Hrej | split; [|split]].
  - rewrite (streaming_rejected true status jr [ReadReject e] Hok eq_refl).
    rewrite Hrej. unfold streamCallbacks, streaming, ok. simpl.
    rewrite Hok. reflexivity.
  - rewrite (streaming_rejected true status jr reads Hok Hout), Hrej.
    reflexivity.
  - rewrite (streaming_rejected true status jr reads Hok Hout), Hrej.
    rewrite existsb_app. simpl. rewrite orb_false_r. reflexivity.
Qed.

(** C9.  When the caller did not pass [onAborted], an [aborted] frame of
    the server invokes no callback and neither does an abort seen by the
    failure handler: the session that is aborted before any frame, or
    whose only frame is [aborted], invokes nothing, an aborted session
    invokes the callbacks of its frames and nothing more, and no session
    invokes [onAborted]. *)
Theorem no_onAborted_no_callback
    (e : JsError) (status : N) (jr : JsonResult P)
    (reads : list ReadResult) (payload : jsstring)
    (Hname : name e = lit "AbortError")
    (Hok : (N.leb 200 status && N.leb status 299)%bool = true)
    (Hout : outcome reads = Rejected e)
    (Hpayload : hasLF payload = false) :
  (forall data, dispatch P false (lit "aborted") data = [])
  /\ onRejected P false e = []
  /\ sendMessageStream false (FetchReject (P:=P) e) = []
  /\ sendMessageStream false (streaming status jr [ReadReject e]) = []
  /\ sendMessageStream false
       (streaming status jr
          [ReadValue (unlines [eventLine (lit "aborted"); dataLine payload]);
           ReadDone]) = []
  /\ sendMessageStream false (streaming status jr reads) =
     streamCallbacks false (streaming status jr reads)
  /\ (forall f : FetchResult P,
        existsb isAborted (sendMessageStream false f) = false).
Proof.
  pose proof (onRejected_abort false e Hname) as Hrej. simpl in Hrej.
  split; [reflexivity | split; [exact Hrej | split; [exact Hrej |]]].
  split; [|split; [|split]].
  - rewrite (streaming_rejected false status jr [ReadReject e] Hok eq_refl).
    rewrite Hrej. unfold streamCallbacks, streaming, ok. simpl.
    rewrite Hok. reflexivity.
  - rewrite sendMessageStream_parts.
    unfold failureCallbacks, failure, streamCallbacks, streaming, ok.
    cbn [Stream.status Stream.body Stream.json_result]. rewrite Hok.
    cbn [received outcome app]. rewrite app_nil_r, app_nil_r.
    rewrite completeLines_cut.
    rewrite <- (app_nil_r (unlines _)), cut_unlines.
    + cbn [fst]. cbn [processLines].
      rewrite processLine_event, processLine_data.
      destruct (JSON_parse P payload); reflexivity.
    + apply hasLF_false in Hpayload.
      repeat constructor.
      * vm_compute. intuition discriminate.
      * unfold dataLine. intros Hin. apply in_app_or in Hin.
        destruct Hin as [Hin|Hin]; [|tauto].
        vm_compute in Hin. intuition discriminate.
    + simpl; tauto.
  - rewrite (streaming_rejected false status jr reads Hok Hout), Hrej.
    apply app_nil_r.
  - intros f. rewrite sendMessageStream_parts, existsb_app.
    apply orb_false_iff. split.
    + assert (forall et lines,
                existsb isAborted
                  (snd (processLines P false et lines)) = false) as Hlines.
      { intros et lines. revert et.
        induction lines as [|l ls IH]; intros et; [reflexivity|].
        simpl. destruct (processLine P false et l) as [et1 c1] eqn:E.
        specialize (IH et1).
        destruct (processLines P false et1 ls) as [et2 c2]. simpl in *.
        rewrite existsb_app, IH, orb_false_r.
        unfold processLine in E.
        destruct (startsWith l (lit "event: ")); [inversion E; reflexivity|].
        destruct (startsWith l (lit "data: ")); [|inversion E; reflexivity].
        destruct (JSON_parse P _); [|inversion E; reflexivity].
        inversion E. unfold dispatch.
        repeat match goal with
               | |- context [if ?b then _ else _] => destruct b
               end; reflexivity. }
      unfold streamCallbacks. destruct f as [r| |]; try reflexivity.
      destruct (ok r); [|reflexivity].
      destruct (body r); [apply Hlines | reflexivity].
    + unfold failureCallbacks. destruct (failure f) as [e'|];
        [|reflexivity].
      unfold onRejected.
      destruct (eqb (name e') (lit "AbortError")); reflexivity.
Qed.

End Abort.

End StreamFacts.

(** ** The thinking text on its way to the screen *)

Module PanelFacts.
Import JS Panel.

Section Facts.

Variable P : Platform.

Lemma shownText_app (a b : list (Update P)) :
  shownText (a ++ b) = shownText a ++ shownText b.
Proof. unfold shownText. rewrite map_app, concat_app. reflexivity. Qed.

Lemma arrivedText_app (a b : list (Input P)) :
  arrivedText (a ++ b) = arrivedText a ++ arrivedText b.
Proof. unfold arrivedText. rewrite map_app, concat_app. reflexivity. Qed.

Lemma run_app (st : State P) (a b : list (Input P)) :
  run st (a ++ b) =
  (fst (run (fst (run st a)) b), snd (run st a) ++ snd (run (fst (run st a)) b)).
Proof.
  revert st; induction a as [|i a IH]; intros st; simpl.
  - destruct (run st b); reflexivity.
  - destruct (handle st i) as [st1 o1]. rewrite IH.
    destruct (run st1 a) as [st2 o2]; simpl.
    destruct (run st2 b) as [st3 o3]; simpl.
    rewrite app_assoc. reflexivity.
Qed.

Lemma run_one (st : State P) (i : Input P) : run st [i] = handle st i.
Proof.
  simpl. destruct (handle st i) as [st1 o1]. rewrite app_nil_r. reflexivity.
Qed.

(** What a flush shows of a buffer. *)
Definition flushed (st : State P) : list (Update P) :=
  match thinkingChunksBuffer st with
  | [] => []
  | _ :: _ =>
      [ThinkingUpdate P (join (thinkingChunksBuffer st))
         (currentThinkingText st ++ join (thinkingChunksBuffer st))]
  end.

Lemma flushThinkingUpdate_out (st : State P) :
  snd (flushThinkingUpdate st) = flushed st
  /\ thinkingChunksBuffer (fst (flushThinkingUpdate st)) = []
  /\ updateTimeoutId (fst (flushThinkingUpdate st)) = None
  /\ timers (fst (flushThinkingUpdate st)) = timers st.
Proof.
  unfold flushThinkingUpdate, flushed.
  destruct (thinkingChunksBuffer st); simpl; auto.
Qed.

Lemma shownText_flushed (st : State P) :
  shownText (flushed st) = join (thinkingChunksBuffer st).
Proof.
  unfold flushed, shownText.
  destruct (thinkingChunksBuffer st); simpl; [reflexivity|].
  rewrite app_nil_r. reflexivity.
Qed.

Lemma clearTimeout_gone (id : nat) (st : State P) :
  ~ In id (timers (clearTimeout id st)).
Proof.
  simpl. intros H. apply filter_In in H. destruct H as [_ H].
  rewrite Nat.eqb_refl in H. discriminate.
Qed.

(** Nothing that arrives is lost or reordered on the way: each input adds
    its chunk to what is shown or still buffered. *)
Lemma handle_text (st : State P) (i : Input P) :
  shownText (snd (handle st i)) ++
  join (thinkingChunksBuffer (fst (handle st i))) =
  join (thinkingChunksBuffer st) ++ arrivedText [i].
Proof.
  destruct i as [e|e|e|e|e|id]; simpl.
  - unfold onThinkingChunk. simpl.
    destruct (updateTimeoutId st); simpl;
      unfold join; rewrite concat_app; simpl; reflexivity.
  - unfold onStep.
    destruct (updateTimeoutId st) as [id|].
    + destruct (flushThinkingUpdate_out (clearTimeout id st))
        as (Ho & Hb & _).
      destruct (flushThinkingUpdate (clearTimeout id st)) as [st1 o1].
      simpl in *. subst o1. rewrite Hb, shownText_app, shownText_flushed.
      simpl. rewrite !app_nil_r. reflexivity.
    + simpl. rewrite app_nil_r. reflexivity.
  - unfold onDone, clearPending.
    destruct (updateTimeoutId st); simpl; rewrite app_nil_r; reflexivity.
  - unfold onError, clearPending.
    destruct (updateTimeoutId st); simpl; rewrite app_nil_r; reflexivity.
  - unfold onAborted, clearPending.
    destruct (updateTimeoutId st); simpl; rewrite app_nil_r; reflexivity.
  - unfold onTimeout. destruct (existsb (Nat.eqb id) (timers st)).
    + destruct (flushThinkingUpdate_out (clearTimeout id st))
        as (Ho & Hb & _).
      rewrite Ho, Hb, shownText_flushed. simpl. reflexivity.
    + simpl. rewrite app_nil_r. reflexivity.
Qed.

Lemma run_text (inputs : list (Input P)) (st : State P) :
  shownText (snd (run st inputs)) ++
  join (thinkingChunksBuffer (fst (run st inputs))) =
  join (thinkingChunksBuffer st) ++ arrivedText inputs.
Proof.
  revert st; induction inputs as [|i inputs IH]; intros st.
  - simpl. rewrite app_nil_r. reflexivity.
  - change (i :: inputs) with ([i] ++ inputs).
    rewrite run_app, run_one, arrivedText_app. simpl fst. simpl snd.
    rewrite shownText_app, <- app_assoc, IH, app_assoc, handle_text.
    rewrite app_assoc. reflexivity.
Qed.

(** Buffered chunks always have a timeout identifier next to them. *)
Definition armed (st : State P) : Prop :=
  thinkingChunksBuffer st <> [] -> updateTimeoutId st <> None.

Lemma handle_armed (st : State P) (i : Input P) :
  armed st -> armed (fst (handle st i)).
Proof.
  unfold armed. intros H.
  destruct i as [e|e|e|e|e|id]; simpl.
  - unfold onThinkingChunk. simpl.
    destruct (updateTimeoutId st) eqn:E; simpl; intros _; congruence.
  - unfold onStep. destruct (updateTimeoutId st) as [id|] eqn:E.
    + destruct (flushThinkingUpdate_out (clearTimeout id st))
        as (_ & Hb & _).
      destruct (flushThinkingUpdate (clearTimeout id st)) as [st1 o1].
      simpl in *. congruence.
    + simpl. intros Hb. apply H in Hb. congruence.
  - unfold onDone, clearPending.
    destruct (updateTimeoutId st) eqn:E; simpl; rewrite ?E; auto; congruence.
  - unfold onError, clearPending.
    destruct (updateTimeoutId st) eqn:E; simpl; rewrite ?E; auto; congruence.
  - unfold onAborted, clearPending.
    destruct (updateTimeoutId st) eqn:E; simpl; rewrite ?E; auto; congruence.
  - unfold onTimeout. destruct (existsb (Nat.eqb id) (timers st)).
    + destruct (flushThinkingUpdate_out (clearTimeout id st))
        as (_ & Hb & _).
      congruence.
    + exact H.
Qed.

Lemma run_armed (inputs : list (Input P)) (st : State P) :
  armed st -> armed (fst (run st inputs)).
Proof.
  revert st; induction inputs as [|i inputs IH]; intros st H; [exact H|].
  change (i :: inputs) with ([i] ++ inputs).
  rewrite run_app, run_one. simpl. apply IH, handle_armed, H.
Qed.

Lemma onStep_empties (st : State P) (e : StepEvent P) :
  armed st -> thinkingChunksBuffer (fst (onStep st e)) = [].
Proof.
  unfold armed, onStep. intros H.
  destruct (updateTimeoutId st) as [id|] eqn:E.
  - destruct (flushThinkingUpdate_out (clearTimeout id st)) as (_ & Hb & _).
    destruct (flushThinkingUpdate (clearTimeout id st)) as [st1 o1].
    exact Hb.
  - simpl. destruct (thinkingChunksBuffer st); [reflexivity|].
    exfalso. apply H; [discriminate | reflexivity].
Qed.

(** A terminal callback shows no thinking text and keeps the buffer. *)
Definition isTerminalInput (i : Input P) : bool :=
  match i with
  | Done _ | Error _ | Aborted _ => true
  | _ => false
  end.

Lemma terminal_keeps_buffer (st : State P) (i : Input P) :
  isTerminalInput i = true ->
  shownText (snd (handle st i)) = [] /\
  thinkingChunksBuffer (fst (handle st i)) = thinkingChunksBuffer st.
Proof.
  destruct i; try discriminate; intros _; simpl;
    unfold clearPending; destruct (updateTimeoutId st); split; reflexivity.
Qed.

Lemma initial_armed : armed (initial P).
Proof. intros H. exfalso. apply H. reflexivity. Qed.

(** C2, amended.  At every moment the thinking text shown so far,
    followed by the chunks still in the buffer, is the text of all chunks
    that arrived, in their order: nothing is lost, repeated or reordered.
    A step shows all text that arrived before it.  A terminal callback
    (done, error, aborted) shows none and leaves the buffered chunks in
    the buffer. *)
Theorem shown_and_buffered_text_is_arrived_text
    (inputs : list (Input P)) :
  let st := fst (run (initial P) inputs) in
  let out := snd (run (initial P) inputs) in
  shownText out ++ join (thinkingChunksBuffer st) = arrivedText inputs
  /\ (forall e : StepEvent P,
        shownText (snd (run (initial P) (inputs ++ [Step e]))) =
        arrivedText inputs)
  /\ (forall i : Input P,
        isTerminalInput i = true ->
        shownText (snd (run (initial P) (inputs ++ [i]))) = shownText out
        /\ thinkingChunksBuffer (fst (run (initial P) (inputs ++ [i]))) =
           thinkingChunksBuffer st).
Proof.
  cbv zeta. split; [|split].
  - rewrite run_text. reflexivity.
  - intros e.
    pose proof (run_text (inputs ++ [Step e]) (initial P)) as H.
    rewrite arrivedText_app in H. simpl in H.
    rewrite app_nil_r in H. rewrite <- H.
    rewrite run_app, run_one. simpl fst. simpl snd.
    rewrite (onStep_empties _ (run_armed inputs initial_armed)).
    rewrite app_nil_r. reflexivity.
  - intros i Hi. rewrite run_app, run_one. simpl fst. simpl snd.
    destruct (terminal_keeps_buffer (fst (run (initial P) inputs)) i Hi)
      as [Hs Hb].
    rewrite shownText_app, Hs, app_nil_r. split; [reflexivity | exact Hb].
Qed.

(** C3, amended.  A step that arrives while [updateTimeoutId] is set
    first cancels the timeout and flushes the buffer, so the buffered text
    is shown before the step; done, error and aborted cancel the timeout
    and show their own update only, the buffered chunks staying in the
    buffer. *)
Theorem step_flushes_terminal_events_do_not
    (st : State P) (id : nat)
    (s : StepEvent P) (d : DoneEvent P) (e : ErrorEvent)
    (a : AbortedEvent)
    (Harmed : updateTimeoutId st = Some id) :
  (exists thinking actions,
      snd (onStep st s) = flushed st ++ [StepUpdate P thinking actions (step s)])
  /\ thinkingChunksBuffer (fst (onStep st s)) = []
  /\ updateTimeoutId (fst (onStep st s)) = None
  /\ ~ In id (timers (fst (onStep st s)))
  /\ (snd (onDone st d) =
        [DoneUpdate P (done_message d) (done_success d) (steps d)
           (thinkingList st) (actionsList st)]
      /\ thinkingChunksBuffer (fst (onDone st d)) = thinkingChunksBuffer st
      /\ ~ In id (timers (fst (onDone st d))))
  /\ (snd (onError st e) =
        [ErrorUpdate P (lit "Error: " ++ error_message e)
           (thinkingList st) (actionsList st)]
      /\ thinkingChunksBuffer (fst (onError st e)) = thinkingChunksBuffer st
      /\ ~ In id (timers (fst (onError st e))))
  /\ (exists content,
        snd (onAborted st a) =
          [AbortedUpdate P content (thinkingList st) (actionsList st)]
      /\ thinkingChunksBuffer (fst (onAborted st a)) = thinkingChunksBuffer st
      /\ ~ In id (timers (fst (onAborted st a)))).
Proof.
  assert (forall st' : State P,
             timers st' = timers (clearTimeout id st) ->
                      ~ In id (timers st')) as Hgone
    by (intros st' ->; apply clearTimeout_gone).
  assert (exists thinking actions,
             snd (onStep st s) =
               flushed st ++ [StepUpdate P thinking actions (step s)]
             /\ thinkingChunksBuffer (fst (onStep st s)) = []
             /\ updateTimeoutId (fst (onStep st s)) = None
             /\ timers (fst (onStep st s)) = timers (clearTimeout id st))
    as (thinking & actions & H1 & H2 & H3 & H4).
  { unfold onStep. rewrite Harmed.
    destruct (flushThinkingUpdate_out (clearTimeout id st))
      as (Ho & Hb & Hi & Ht).
    destruct (flushThinkingUpdate (clearTimeout id st)) as [st1 o1].
    simpl in *. subst o1. eexists; eexists.
    split; [reflexivity | auto]. }
  split; [exists thinking, actions; exact H1|].
  split; [exact H2 | split; [exact H3 | split; [apply Hgone, H4 |]]].
  unfold onDone, onError, onAborted, clearPending. rewrite Harmed.
  split; [|split].
  - repeat split. apply clearTimeout_gone.
  - repeat split. apply clearTimeout_gone.
  - eexists. repeat split. apply clearTimeout_gone.
Qed.

End Facts.

End PanelFacts.

(** ** Scenarios *)

Module Scenarios.
Import JS JSFacts Stream StreamFacts.

Definition P0 : Platform := IntJson.platform.

(** One frame on the wire: an [event: ] line and a [data: ] line. *)
Definition frame (name payload : string) : jsstring :=
  unlines [eventLine (lit name); dataLine (quoted payload)].

(** [response.json()] on a body with this text. *)
Definition bodyJson (text : jsstring) : JsonResult P0 :=
  match IntJson.parse text with
  | Some v => JsonResolve (P:=P0) v
  | None =>
      JsonReject {| name := lit "SyntaxError";
                    message := lit "Unexpected token" |}
  end.

(** What [controller.abort()] makes a pending fetch or read throw. *)
Definition abortError : JsError :=
  {| name := lit "AbortError"; message := lit "The user aborted a request." |}.

Definition json (text : string) : Json.value (number P0) :=
  match IntJson.parse (quoted text) with
  | Some v => v
  | None => Json.Null
  end.

Definition stepFrame : jsstring :=
  frame "step"
    "{'step':1,'thinking':'t','action':{},'success':true,'finished':false}".

Definition doneFrame : jsstring :=
  frame "done" "{'message':'ok','steps':1,'success':true}".


Definition ok200 (reads : list ReadResult) : FetchResult P0 :=
  streaming 200 (bodyJson []) reads.

Definition stepData : Json.value (number P0) :=
  json "{'step':1,'thinking':'t','action':{},'success':true,'finished':false}".

Definition doneData : Json.value (number P0) :=
  json "{'message':'ok','steps':1,'success':true}".

Definition errorEvent (m : string) : Callback P0 :=
  OnError (event P0 "error" (lit m)).

(** The scenario of the protocol description: a step frame, then a done
    frame. *)
Example step_then_done :
  sendMessageStream true (ok200 [ReadValue stepFrame; ReadValue doneFrame;
                                 ReadDone]) =
  [OnStep stepData; OnDone doneData].
Proof. vm_compute. reflexivity. Qed.

(** A [data: ] line cut in the middle by the network. *)
Example frame_cut_in_two :
  sendMessageStream true
    (ok200 [ReadValue (stepFrame ++ firstn 20 doneFrame);
            ReadValue (skipn 20 doneFrame); ReadDone]) =
  [OnStep stepData; OnDone doneData].
Proof. vm_compute. reflexivity. Qed.

(** *** C1 *)

(** A session that is well terminated: one done frame, the last one, and a
    normal end. *)
Lemma terminal_event_last_witness :
  wellTerminated true (ok200 [ReadValue (stepFrame ++ doneFrame); ReadDone])
    = true
  /\ terminalLast
       (sendMessageStream true
          (ok200 [ReadValue (stepFrame ++ doneFrame); ReadDone])) = true.
Proof.
  split.
  - vm_compute. reflexivity.
  - apply (proj2 (proj2 (proj2
      (terminal_event_last_when_well_terminated true
         (ok200 [ReadValue (stepFrame ++ doneFrame); ReadDone]))))).
    vm_compute. reflexivity.
Defined.

(** A done frame, and then [close()] before the stream ends: [onDone] and
    then [onAborted].  A done frame followed by a step frame and an error
    frame: all three callbacks. *)
Lemma two_terminal_events :
  sendMessageStream true (ok200 [ReadValue doneFrame; ReadReject abortError])
    = [OnDone doneData; abortedByUser P0]
  /\ terminalLast
       (sendMessageStream true
          (ok200 [ReadValue doneFrame; ReadReject abortError])) = false
  /\ sendMessageStream true
       (ok200 [ReadValue (doneFrame ++ stepFrame
                          ++ frame "error" "{'message':'late'}"); ReadDone])
     = [OnDone doneData; OnStep stepData; OnError (json "{'message':'late'}")]
  /\ terminalLast
       (sendMessageStream true
          (ok200 [ReadValue (doneFrame ++ stepFrame
                             ++ frame "error" "{'message':'late'}");
                  ReadDone])) = false.
Proof. repeat split; vm_compute; reflexivity. Qed.

(** *** C5 *)

Lemma malformed_data_line_witness :
  JSON_parse P0 (lit "{bad") = None
  /\ sendMessageStream true
       (ok200 [ReadValue (unlines [eventLine (lit "step");
                                   dataLine (lit "{bad")] ++ doneFrame);
               ReadDone]) =
     sendMessageStream true
       (ok200 [ReadValue (unlines [eventLine (lit "step")] ++ doneFrame);
               ReadDone]).
Proof.
  split; [reflexivity|].
  refine (proj2 (proj2
    (@malformed_data_line_is_dropped P0 true (lit "message") (lit "{bad") []
       [eventLine (lit "step")]
       [eventLine (lit "done");
        dataLine (quoted "{'message':'ok','steps':1,'success':true}")]
       200 (bodyJson [])
       [ReadValue (unlines [eventLine (lit "step");
                            dataLine (lit "{bad")] ++ doneFrame); ReadDone]
       [ReadValue (unlines [eventLine (lit "step")] ++ doneFrame); ReadDone]
       _ _ _ _ _ _ _ _))); vm_compute; reflexivity.
Defined.

(** *** C6 *)



(** *** C7 and C9 *)

Lemma local_abort_witness :
  name abortError = lit "AbortError"
  /\ sendMessageStream true (FetchReject (P:=P0) abortError) =
     [abortedByUser P0]
  /\ sendMessageStream true
       (ok200 [ReadValue stepFrame; ReadReject abortError]) =
     [OnStep stepData; abortedByUser P0].
Proof.
  pose proof (@local_abort_is_one_aborted_event P0 abortError 200
                (bodyJson []) [ReadValue stepFrame; ReadReject abortError]
                eq_refl eq_refl eq_refl) as H.
  split; [reflexivity | split].
  - exact (proj1 H).
  - exact (eq_trans (proj1 (proj2 (proj2 H))) eq_refl).
Defined.

(** An abort while [response.json()] reads the body of a response that is
    not ok is caught by the inner [try]: the failure handler sees the
    status error. *)
Example abort_while_reading_error_body :
  sendMessageStream true
    (FetchResolve (P:=P0)
       {| status := 500; json_result := JsonReject abortError;
          body := None |}) =
  [errorEvent "HTTP error! status: 500"].
Proof. vm_compute. reflexivity. Qed.

(** Without [onAborted], closing before any frame invokes nothing. *)
Lemma abort_without_onAborted :
  sendMessageStream false (FetchReject (P:=P0) abortError) = []
  /\ sendMessageStream false (FetchReject (P:=P0) abortError) <>
     [abortedByUser P0]
  /\ sendMessageStream false (ok200 [ReadReject abortError]) = [].
Proof.
  repeat split; try (vm_compute; reflexivity).
  vm_compute. discriminate.
Qed.

Lemma no_onAborted_witness :
  name abortError = lit "AbortError"
  /\ sendMessageStream false
       (ok200 [ReadValue (frame "aborted" "{'message':'stopped'}");
               ReadDone]) = []
  /\ sendMessageStream false
       (ok200 [ReadValue stepFrame; ReadReject abortError]) =
     [OnStep stepData].
Proof.
  pose proof (@no_onAborted_no_callback P0 abortError 200
                (bodyJson []) [ReadValue stepFrame; ReadReject abortError]
                (quoted "{'message':'stopped'}")
                eq_refl eq_refl eq_refl eq_refl) as H.
  split; [reflexivity | split].
  - exact (proj1 (proj2 (proj2 (proj2 (proj2 H))))).
  - exact (eq_trans (proj1 (proj2 (proj2 (proj2 (proj2 (proj2 H)))))) eq_refl).
Defined.

(** *** C10 *)

(** A done frame whose [data: ] line lacks its line feed when the stream
    ends. *)
Definition openDoneLine : jsstring :=
  dataLine (quoted "{'message':'ok','steps':1,'success':true}").

Lemma unterminated_last_line_witness :
  hasLF openDoneLine = false
  /\ sendMessageStream true
       (ok200 (map ReadValue
                 ([stepFrame ++ unlines [eventLine (lit "done")]]
                  ++ [openDoneLine]) ++ [ReadDone])) =
     sendMessageStream true
       (ok200 (map ReadValue
                 [stepFrame ++ unlines [eventLine (lit "done")]]
               ++ [ReadDone])).
Proof.
  split; [reflexivity|].
  exact (proj1 (proj2
    (@unterminated_last_line_is_discarded P0 true
       [stepFrame ++ unlines [eventLine (lit "done")]] openDoneLine []
       200 (bodyJson []) eq_refl))).
Defined.

Example open_done_line_is_lost :
  sendMessageStream true
    (ok200 [ReadValue (stepFrame ++ unlines [eventLine (lit "done")]);
            ReadValue openDoneLine; ReadDone]) = [OnStep stepData]
  /\ sendMessageStream true
       (ok200 [ReadValue (stepFrame ++ unlines [eventLine (lit "done")]);
               ReadValue (openDoneLine ++ [LF]); ReadDone]) =
     [OnStep stepData; OnDone doneData].
Proof. split; vm_compute; reflexivity. Qed.

End Scenarios.

Module PanelScenarios.
Import JS Panel PanelFacts.
Import Scenarios.

Definition chunkOf (text : string) : Input P0 :=
  Chunk {| chunk := lit text |}.

Definition done : Input P0 :=
  Done {| done_message := lit "ok"; steps := 1%Z : number P0;
          done_success := true |}.

Definition step1 : StepEvent P0 :=
  {| step := 1%Z : number P0; thinking := []; action := Json.Obj [];
     step_success := true; finished := false |}.

(** The state when "He" and "llo" have arrived within the 50ms. *)
Definition hello : State P0 :=
  fst (run (initial P0) [chunkOf "He"; chunkOf "llo"]).

(** *** C2 *)

(** "He" and "llo", then done before the timeout runs: nothing of the
    text is shown. *)
Lemma buffered_text_is_not_shown_on_done :
  shownText (snd (run (initial P0) [chunkOf "He"; chunkOf "llo"; done])) = []
  /\ arrivedText [chunkOf "He"; chunkOf "llo"; done] = lit "Hello"
  /\ shownText (snd (run (initial P0) [chunkOf "He"; chunkOf "llo"; done]))
     <> arrivedText [chunkOf "He"; chunkOf "llo"; done].
Proof.
  repeat split; try (vm_compute; reflexivity).
  vm_compute. discriminate.
Qed.

Lemma shown_and_buffered_text_witness :
  isTerminalInput done = true
  /\ shownText
       (snd (run (initial P0)
               ([chunkOf "He"; chunkOf "llo"; Timeout 1; chunkOf "!"]
                ++ [done]))) = lit "Hello"
  /\ thinkingChunksBuffer
       (fst (run (initial P0)
               ([chunkOf "He"; chunkOf "llo"; Timeout 1; chunkOf "!"]
                ++ [done]))) = [lit "!"].
Proof.
  pose proof (proj2 (proj2
    (shown_and_buffered_text_is_arrived_text
       [chunkOf "He"; chunkOf "llo"; Timeout 1; chunkOf "!"]))
    done eq_refl) as H.
  split; [reflexivity | split].
  - exact (eq_trans (proj1 H) eq_refl).
  - exact (eq_trans (proj2 H) eq_refl).
Defined.

(** *** C3 *)

(** The timeout is pending when done arrives; done shows its own update
    and the two chunks stay in the buffer. *)
Lemma done_does_not_flush :
  updateTimeoutId hello = Some 1
  /\ timers hello = [1]
  /\ snd (run (initial P0) [chunkOf "He"; chunkOf "llo"; done]) =
     [DoneUpdate P0 (lit "ok") true 1%Z [] []]
  /\ thinkingChunksBuffer
       (fst (run (initial P0) [chunkOf "He"; chunkOf "llo"; done])) =
     [lit "He"; lit "llo"]
  /\ snd (run (initial P0) [chunkOf "He"; chunkOf "llo"; done]) <>
     [ThinkingUpdate P0 (lit "Hello") (lit "Hello");
      DoneUpdate P0 (lit "ok") true 1%Z [] []].
Proof.
  repeat split; try (vm_compute; reflexivity).
  vm_compute. discriminate.
Qed.

Lemma step_flushes_witness :
  updateTimeoutId hello = Some 1
  /\ snd (onStep hello step1) =
     [ThinkingUpdate P0 (lit "Hello") (lit "Hello");
      StepUpdate P0 [lit "Hello"] [Json.Obj []] 1%Z]
  /\ thinkingChunksBuffer (fst (onStep hello step1)) = [].
Proof.
  pose proof (@step_flushes_terminal_events_do_not P0 hello 1 step1
                {| done_message := lit "ok"; steps := 1%Z : number P0;
                   done_success := true |}
                {| error_message := lit "no" |}
                {| aborted_message := [] |} eq_refl) as H.
  split; [reflexivity | split].
  - vm_compute. reflexivity.
  - exact (proj1 (proj2 H)).
Defined.

(** When the timeout runs before done, the text is shown first. *)
Example timeout_before_done :
  snd (run (initial P0) [chunkOf "He"; chunkOf "llo"; Timeout 1; done]) =
  [ThinkingUpdate P0 (lit "Hello") (lit "Hello");
   DoneUpdate P0 (lit "ok") true 1%Z [] []].
Proof. vm_compute. reflexivity. Qed.

End PanelScenarios.

(** * Further properties of the stream reader *)

Module StreamMore.
Import JS JSFacts Stream StreamFacts.

(** ** Trimming *)

Lemma trimStart_white (ws s : jsstring) :
  forallb isWhiteSpace ws = true -> trimStart (ws ++ s) = trimStart s.
Proof.
  induction ws as [|c ws IH]; simpl; intros H; [reflexivity|].
  apply andb_true_iff in H. destruct H as [Hc Hws].
  rewrite Hc. apply IH, Hws.
Qed.

Lemma trimStart_app (s t : jsstring) :
  trimStart s <> [] -> trimStart (s ++ t) = trimStart s ++ t.
Proof.
  induction s as [|c s IH]; simpl; intros H; [congruence|].
  destruct (isWhiteSpace c); [apply IH, H | reflexivity].
Qed.

Lemma forallb_rev (A : Type) (f : A -> bool) (l : list A) :
  forallb f (rev l) = forallb f l.
Proof.
  induction l as [|a l IH]; simpl; [reflexivity|].
  rewrite forallb_app, IH. simpl. rewrite andb_true_r. apply andb_comm.
Qed.

Lemma trimEnd_white (s ws : jsstring) :
  forallb isWhiteSpace ws = true -> trimEnd (s ++ ws) = trimEnd s.
Proof.
  intros H. unfold trimEnd. rewrite rev_app_distr, trimStart_white;
    [reflexivity | rewrite forallb_rev; exact H].
Qed.

Lemma trimStart_all_white (s : jsstring) :
  trimStart s = [] -> forallb isWhiteSpace s = true.
Proof.
  induction s as [|c s IH]; simpl; [reflexivity|].
  destruct (isWhiteSpace c); [exact IH | discriminate].
Qed.

Lemma trim_white (ws1 s ws2 : jsstring) :
  forallb isWhiteSpace ws1 = true -> forallb isWhiteSpace ws2 = true ->
  trim (ws1 ++ s ++ ws2) = trim s.
Proof.
  intros H1 H2. unfold trim. rewrite (trimStart_white ws1 _ H1).
  destruct (trimStart s) as [|c r] eqn:E.
  - assert (forallb isWhiteSpace (s ++ ws2) = true) as Hall
      by (rewrite forallb_app, (trimStart_all_white s E), H2; reflexivity).
    rewrite <- (app_nil_r (s ++ ws2)), (trimStart_white _ [] Hall).
    reflexivity.
  - rewrite trimStart_app by congruence.
    rewrite E. apply trimEnd_white, H2.
Qed.

Lemma trim_end_white (s ws : jsstring) :
  forallb isWhiteSpace ws = true -> trim (s ++ ws) = trim s.
Proof. intros H. apply (trim_white [] s ws eq_refl H). Qed.

Section Facts.

Variable P : Platform.
Variable onAborted : bool.

(** ** Lines that are neither [event: ] nor [data: ] lines *)

Definition isOther (line : jsstring) : bool :=
  negb (startsWith line (lit "event: ")) &&
  negb (startsWith line (lit "data: ")).

Lemma processLine_other (et line : jsstring) :
  isOther line = true -> processLine P onAborted et line = (et, []).
Proof.
  unfold isOther, processLine. intros H.
  apply andb_true_iff in H. destruct H as [H1 H2].
  destruct (startsWith line (lit "event: ")); [discriminate|].
  destruct (startsWith line (lit "data: ")); [discriminate | reflexivity].
Qed.

(** A line that changes nothing can be taken out of the lines. *)
Lemma processLines_silent (line : jsstring) (pre post : list jsstring) :
  (forall et, processLine P onAborted et line = (et, [])) ->
  forall et,
    processLines P onAborted et (pre ++ line :: post) =
    processLines P onAborted et (pre ++ post).
Proof.
  intros H et. rewrite !processLines_app. cbn [processLines].
  rewrite H.
  destruct (processLines P onAborted
              (fst (processLines P onAborted et pre)) post).
  reflexivity.
Qed.

(** A blank line, a comment line, or a field written without the space
    after the colon is skipped: it invokes nothing and keeps the event
    name, the lines around it are processed as without it, and so is the
    whole session. *)
Theorem other_lines_are_skipped
    (et line tl : jsstring) (pre post : list jsstring)
    (status : N) (jr : JsonResult P) (reads reads' : list ReadResult)
    (Hline : isOther line = true)
    (Hnl : hasLF line = false)
    (Hpre : forallb (fun l => negb (hasLF l)) pre = true)
    (Hpost : forallb (fun l => negb (hasLF l)) post = true)
    (Htl : hasLF tl = false)
    (Hreads : received reads = unlines (pre ++ line :: post) ++ tl)
    (Hreads' : received reads' = unlines (pre ++ post) ++ tl)
    (Hend : outcome reads = outcome reads') :
  processLines P onAborted et (pre ++ line :: post) =
  processLines P onAborted et (pre ++ post)
  /\ sendMessageStream onAborted (streaming status jr reads) =
     sendMessageStream onAborted (streaming status jr reads').
Proof.
  pose proof (processLines_silent line pre post
                (fun e => processLine_other e line Hline)) as H2.
  split; [apply H2|].
  unfold sendMessageStream, onResponse, streaming. simpl.
  destruct (negb _); [reflexivity|].
  rewrite !readLoop_initial, Hend, !completeLines_cut, Hreads, Hreads'.
  apply noLF_lines in Hpre. apply noLF_lines in Hpost.
  apply hasLF_false in Hnl. apply hasLF_false in Htl.
  rewrite !cut_unlines; auto.
  - simpl. rewrite H2. reflexivity.
  - apply Forall_app; auto.
  - apply Forall_app; split; auto.
Qed.

(** ** White space around the event name *)

Definition CR : codeunit := 13%N.

(** Frames written with the given line ending after each line. *)
Definition frameLines (ending : jsstring)
    (frames : list (jsstring * jsstring)) : list jsstring :=
  concat (map (fun f => [eventLine (fst f ++ ending);
                         dataLine (snd f ++ ending)]) frames).

(** White space around the name of an [event: ] line does not count.  So a
    stream that ends its lines with CR LF selects the callbacks of the
    same stream with LF, as long as [JSON.parse] accepts the payloads with
    the CR that stays at their end. *)
Theorem white_space_around_event_name
    (et raw ws1 ws2 : jsstring) (frames : list (jsstring * jsstring))
    (Hws1 : forallb isWhiteSpace ws1 = true)
    (Hws2 : forallb isWhiteSpace ws2 = true)
    (Hparse : Forall
                (fun f => JSON_parse P (snd f ++ [CR]) = JSON_parse P (snd f))
                frames) :
  processLine P onAborted et (eventLine (ws1 ++ raw ++ ws2)) =
  processLine P onAborted et (eventLine raw)
  /\ processLines P onAborted et (frameLines [CR] frames) =
     processLines P onAborted et (frameLines [] frames).
Proof.
  split.
  - rewrite !processLine_event, trim_white; auto.
  - revert et. induction Hparse as [|[name payload] fs Hp _ IH]; intros et;
      [reflexivity|].
    unfold frameLines in *. cbn [map concat app processLines fst snd] in *.
    rewrite !processLine_event, !processLine_data, !app_nil_r.
    rewrite (trim_end_white name [CR] eq_refl), Hp, IH. reflexivity.
Qed.

(** ** How many callbacks *)

Definition isDataLine (line : jsstring) : bool :=
  negb (startsWith line (lit "event: ")) && startsWith line (lit "data: ").

Lemma dispatch_length (et : jsstring) (data : Json.value (number P)) :
  length (dispatch P onAborted et data) <= 1.
Proof.
  unfold dispatch.
  repeat match goal with
         | |- context [if ?b then _ else _] => destruct b
         end; simpl; lia.
Qed.

Lemma processLine_length (et line : jsstring) :
  length (snd (processLine P onAborted et line)) <=
  (if isDataLine line then 1 else 0).
Proof.
  unfold isDataLine, processLine.
  destruct (startsWith line (lit "event: ")); [simpl; lia|].
  destruct (startsWith line (lit "data: ")); [|simpl; lia].
  destruct (JSON_parse P (slice line 6)); cbn [snd negb andb];
    [apply dispatch_length | simpl; lia].
Qed.

Lemma processLines_length (lines : list jsstring) (et : jsstring) :
  length (snd (processLines P onAborted et lines)) <=
  length (filter isDataLine lines).
Proof.
  revert et; induction lines as [|l ls IH]; intros et; [simpl; lia|].
  cbn [processLines filter].
  pose proof (processLine_length et l) as Hl.
  destruct (processLine P onAborted et l) as [et1 c1].
  specialize (IH et1).
  destruct (processLines P onAborted et1 ls) as [et2 c2].
  cbn [snd] in *. rewrite length_app.
  destruct (isDataLine l); cbn [length]; lia.
Qed.

(** A session invokes at most one callback for each complete [data: ]
    line of the text it received, and at most one more, from the failure
    handler. *)
Theorem at_most_one_callback_per_data_line
    (status : N) (jr : JsonResult P) (reads : list ReadResult) :
  length (sendMessageStream onAborted (streaming status jr reads)) <=
  length (filter isDataLine (completeLines (received reads))) + 1.
Proof.
  rewrite sendMessageStream_parts, length_app.
  pose proof (failureCallbacks_one onAborted (streaming status jr reads))
    as [Hf _].
  assert (length (streamCallbacks onAborted (streaming status jr reads)) <=
          length (filter isDataLine (completeLines (received reads)))).
  { unfold streamCallbacks, streaming. simpl.
    destruct (ok _); [apply processLines_length | simpl; lia]. }
  lia.
Qed.

(** ** Failures that are no abort *)

(** When the request fails, or a read of the body fails, with an error
    that is no AbortError, the session invokes the callbacks of the frames
    read so far and then [onError] once, with the message of that error;
    a response without body gives one error event as well.  Whether the
    caller passed [onAborted] makes no difference. *)
Theorem failure_is_reported_once
    (e : JsError) (status : N) (jr : JsonResult P)
    (reads : list ReadResult)
    (Hname : eqb (name e) (lit "AbortError") = false)
    (Hok : (N.leb 200 status && N.leb status 299)%bool = true)
    (Hout : outcome reads = Rejected e) :
  sendMessageStream onAborted (FetchReject e) =
    [OnError (event P "error" (message e))]
  /\ sendMessageStream onAborted (streaming status jr reads) =
     snd (processLines P onAborted (lit "message")
            (completeLines (received reads))) ++
     [OnError (event P "error" (message e))]
  /\ sendMessageStream onAborted
       (FetchResolve {| status := status; json_result := jr; body := None |})
     = [OnError (event P "error" (lit "Response body is null"))].
Proof.
  assert (onRejected P onAborted e =
          [OnError (event P "error" (message e))]) as Hrej
    by (unfold onRejected; rewrite Hname; reflexivity).
  split; [exact Hrej | split].
  - rewrite (streaming_rejected onAborted status jr reads Hok Hout), Hrej.
    unfold streamCallbacks, streaming, ok. simpl. rewrite Hok. reflexivity.
  - unfold sendMessageStream, onResponse, ok. simpl. rewrite Hok. reflexivity.
Qed.

(** ** Nothing of the text is lost between the reads *)

Lemma unlines_cut (s : jsstring) : unlines (fst (cut s)) ++ snd (cut s) = s.
Proof.
  induction s as [|c s IH]; [reflexivity|].
  simpl. destruct (cut s) as [ls r]. simpl in IH.
  destruct (N.eqb c LF) eqn:E.
  - apply N.eqb_eq in E. subst c. simpl. unfold unlines in *. simpl.
    rewrite IH. reflexivity.
  - destruct ls as [|l ls]; simpl in *.
    + rewrite IH. reflexivity.
    + unfold unlines in *. simpl in *. rewrite <- !app_assoc in *.
      simpl in *. rewrite IH. reflexivity.
Qed.

Lemma cut_lines_no_LF (s : jsstring) :
  Forall (fun l => ~ In LF l) (fst (cut s)).
Proof.
  induction s as [|c s IH]; simpl; [constructor|].
  destruct (cut s) as [ls r]. simpl in IH.
  destruct (N.eqb c LF) eqn:E; simpl.
  - constructor; [simpl; tauto | exact IH].
  - destruct ls as [|l ls]; simpl; [constructor|].
    inversion IH; subst. constructor; [|assumption].
    intros [H|H]; [subst c; discriminate E | tauto].
Qed.

(** When the loop ends, the lines it acted on, each with its line feed,
    followed by [buffer], make up the text received, character for
    character; no line acted on and no [buffer] holds a line feed. *)
Theorem lines_and_buffer_are_the_text (reads : list ReadResult) :
  let st := fst (fst (readLoop P onAborted initial reads)) in
  unlines (completeLines (received reads)) ++ buffer st = received reads
  /\ Forall (fun l => ~ In LF l) (completeLines (received reads))
  /\ ~ In LF (buffer st).
Proof.
  cbv zeta. rewrite readLoop_initial. simpl.
  rewrite completeLines_cut, trailing_cut.
  split; [apply unlines_cut | split].
  - apply cut_lines_no_LF.
  - apply cut_rest_no_LF.
Qed.

End Facts.

End StreamMore.

(** * getErrorMessage *)

Module ErrorMessage.
Import JS JSFacts Stream StreamFacts.

Section GetErrorMessage.

Variable P : Platform.
Let json : Type := Json.value (number P).

(** What the function reads of a caught value that is an object: its
    [data], [message] and [status] properties ([None]: undefined), and
    whether it is an instance of [Error]. *)
Record ErrorObject : Type := {
  data : option json;
  message : option json;
  status : option json;
  isError : bool
}.

(** A caught value: an object, or anything else ([null], [undefined], a
    primitive, a function). *)
Inductive Caught : Type :=
| Object (o : ErrorObject)
| NotObject.

(** [axiosError.data?.detail] *)
Definition detailOf (o : ErrorObject) : option json :=
  match data o with
  | Some (Json.Obj props) => Json.lookup props (lit "detail")
  | _ => None
  end.

(** [if (x)] on a property that may be undefined *)
Definition present (x : option json) : bool :=
  match x with
  | Some v => Json.truthy (number_truthy P) v
  | None => false
  end.

(** What the function returns; the declared type is [string], the value
    is whatever the property holds. *)
Definition getErrorMessage (error : Caught) : json :=
  let unknown := Json.Str (lit "Unknown error") in
  match error with
  | Object o =>
      match detailOf o, present (detailOf o) with
      | Some detail, true => detail
      | _, _ =>
          match message o, present (message o) with
          | Some m, true => m
          | _, _ =>
              match status o, present (status o) with
              | Some s, true =>
                  Json.Str (lit "HTTP error! status: " ++
                            Json.toString (number_toString P) s)
              | _, _ =>
                  if isError o then
                    match message o with
                    | Some m => m
                    | None => Json.Str []
                    end
                  else unknown
              end
          end
      end
  | NotObject => unknown
  end.

(** The function returns a falsy value, such as the empty string, in one
    case only: an [Error] instance without a truthy [data.detail],
    [message] or [status]. *)
Theorem getErrorMessage_is_falsy_only_for_empty_errors (error : Caught) :
  Json.truthy (number_truthy P) (getErrorMessage error) = false <->
  exists o, error = Object o /\ isError o = true
            /\ present (detailOf o) = false
            /\ present (message o) = false
            /\ present (status o) = false.
Proof.
  destruct error as [o|]; simpl;
    [|split; [discriminate | intros (o & Ho & _); discriminate]].
  unfold present.
  destruct (detailOf o) as [d|] eqn:Ed, (message o) as [m|] eqn:Em,
           (status o) as [s|] eqn:Es, (isError o) eqn:Ei;
    repeat match goal with
           | |- context [Json.truthy (number_truthy P) ?v] =>
               is_var v; destruct (Json.truthy (number_truthy P) v) eqn:?
           end;
    (split;
     [ intros H; try congruence; try discriminate H;
       exists o; rewrite ?Ed, ?Em, ?Es, ?Ei; auto
     | intros (o' & Ho & Hi & Hd & Hm & Hs); inversion Ho; subst o';
       rewrite ?Ed, ?Em, ?Es in *; simpl in *; congruence ]).
Qed.

(** What redaxios rejects with for a response that is not ok: the
    response, whose [data] is the body parsed as JSON, or its text when
    that fails, and whose [status] is the status code; it has no
    [message]. *)
Definition rejection (r : Response P) (text : jsstring) (code : number P)
  : ErrorObject :=
  {| data := Some match json_result r with
                  | JsonResolve v => v
                  | JsonReject _ => Json.Str text
                  end;
     message := None;
     status := Some (Json.Number code);
     isError := false |}.

(** For one and the same failed response, with a status code that is not
    zero, the text that [getErrorMessage] takes from the rejection of
    redaxios is the message of the error event that [sendMessageStream]
    dispatches. *)
Theorem getErrorMessage_agrees_with_sendMessageStream
    (onAborted : bool) (r : Response P) (text : jsstring) (code : number P)
    (Hstatus : ok r = false)
    (Hcode : number_toString P code = ofN (Stream.status r))
    (Hnonzero : number_truthy P code = true) :
  sendMessageStream onAborted (FetchResolve r) =
  [OnError
     (event P "error"
        (Json.toString (number_toString P)
           (getErrorMessage (Object (rejection r text code)))))].
Proof.
  unfold sendMessageStream, onResponse. rewrite Hstatus. simpl.
  unfold onRejected, newError. simpl. do 3 f_equal.
  unfold errorDetail, detailOf, present, rejection. simpl.
  rewrite Hnonzero, Hcode.
  destruct (json_result r) as [v|e]; [|reflexivity].
  destruct v; try reflexivity. simpl.
  destruct (Json.lookup props (lit "detail")) as [d|]; [|reflexivity].
  destruct (Json.truthy (number_truthy P) d); reflexivity.
Qed.

End GetErrorMessage.

End ErrorMessage.

(** * Further properties of the chat panel callbacks *)

Module PanelMore.
Import JS Panel PanelFacts.

Section Facts.

Variable P : Platform.

(** ** The flush timer *)

(** The pending timeouts are none, or the one that [updateTimeoutId]
    names. *)
Definition timerOK (st : State P) : Prop :=
  timers st = [] \/
  exists id, updateTimeoutId st = Some id /\ timers st = [id].

Lemma clearTimeout_timerOK (st : State P) (id : nat) :
  timerOK st -> updateTimeoutId st = Some id ->
  timers (clearTimeout id st) = [].
Proof.
  intros [H|(id' & Hid & H)] E; simpl; rewrite H; [reflexivity|].
  assert (id' = id) by congruence. subst id'. simpl.
  rewrite Nat.eqb_refl. reflexivity.
Qed.

Lemma handle_timerOK (st : State P) (i : Input P) :
  timerOK st -> timerOK (fst (handle st i)).
Proof.
  intros H. destruct i as [e|e|e|e|e|id]; simpl.
  - unfold onThinkingChunk. simpl.
    destruct (updateTimeoutId st) as [id|] eqn:E; simpl.
    + destruct H as [H|(id' & Hid & H)]; [left; exact H|].
      right. exists id'. simpl. split; [congruence | exact H].
    + destruct H as [H|(id' & Hid & H)]; [|congruence].
      right. exists (nextTimer st). simpl. rewrite H. split; reflexivity.
  - unfold onStep. destruct (updateTimeoutId st) as [id|] eqn:E.
    + pose proof (clearTimeout_timerOK H E) as Hc.
      destruct (flushThinkingUpdate_out (clearTimeout id st))
        as (_ & _ & _ & Ht).
      destruct (flushThinkingUpdate (clearTimeout id st)) as [st1 o1].
      left. simpl in *. congruence.
    + simpl. destruct H as [H|(id' & Hid & H)]; [left; exact H|congruence].
  - unfold onDone, clearPending.
    destruct (updateTimeoutId st) as [id|] eqn:E; [|exact H].
    left. apply clearTimeout_timerOK; assumption.
  - unfold onError, clearPending.
    destruct (updateTimeoutId st) as [id|] eqn:E; [|exact H].
    left. apply clearTimeout_timerOK; assumption.
  - unfold onAborted, clearPending.
    destruct (updateTimeoutId st) as [id|] eqn:E; [|exact H].
    left. apply clearTimeout_timerOK; assumption.
  - unfold onTimeout.
    destruct (existsb (Nat.eqb id) (timers st)) eqn:Ex; [|exact H].
    destruct (flushThinkingUpdate_out (clearTimeout id st))
      as (_ & _ & _ & Ht).
    left. rewrite Ht.
    destruct H as [H|(id' & Hid & H)].
    + rewrite H in Ex. discriminate.
    + rewrite H in Ex. simpl in Ex. rewrite orb_false_r in Ex.
      apply Nat.eqb_eq in Ex. subst id'.
      apply clearTimeout_timerOK; [right; exists id; auto | exact Hid].
Qed.

Lemma run_timerOK (inputs : list (Input P)) (st : State P) :
  timerOK st -> timerOK (fst (run st inputs)).
Proof.
  revert st; induction inputs as [|i inputs IH]; intros st H; [exact H|].
  change (i :: inputs) with ([i] ++ inputs).
  rewrite run_app, run_one. simpl. apply IH, handle_timerOK, H.
Qed.

(** Whatever arrives, and whatever timeouts the window runs, at most one
    timeout is pending, and a pending timeout is the one that
    [updateTimeoutId] holds. *)
Theorem at_most_one_pending_timeout (inputs : list (Input P)) :
  let st := fst (run (initial P) inputs) in
  length (timers st) <= 1
  /\ (forall id, In id (timers st) -> updateTimeoutId st = Some id).
Proof.
  cbv zeta.
  assert (timerOK (initial P)) as H0 by (left; reflexivity).
  destruct (run_timerOK inputs H0) as [H|(id & Hid & H)]; rewrite H; simpl.
  - split; [lia | tauto].
  - split; [lia | intros id' [<-|[]]; exact Hid].
Qed.

(** ** After a terminal callback *)

Definition noStep (i : Input P) : bool :=
  match i with Step _ => false | _ => true end.

Definition noStepNoChunk (i : Input P) : bool :=
  match i with Step _ | Chunk _ => false | _ => true end.

(** The state that a terminal callback leaves when it found a timeout
    identifier: the identifier stays, its timeout is gone. *)
Definition stale (st : State P) : Prop :=
  updateTimeoutId st <> None /\ timers st = [].

Lemma handle_stale (st : State P) (i : Input P) :
  stale st -> noStep i = true ->
  stale (fst (handle st i)) /\ shownText (snd (handle st i)) = [].
Proof.
  unfold stale. intros [Hid Ht] Hi.
  destruct i as [e|e|e|e|e|id]; try discriminate; simpl.
  - unfold onThinkingChunk. simpl.
    destruct (updateTimeoutId st) eqn:E; [|congruence].
    simpl. rewrite ?E. repeat split; auto; discriminate.
  - unfold onDone, clearPending. destruct (updateTimeoutId st) eqn:E;
      simpl; rewrite ?E, ?Ht; repeat split; auto.
  - unfold onError, clearPending. destruct (updateTimeoutId st) eqn:E;
      simpl; rewrite ?E, ?Ht; repeat split; auto.
  - unfold onAborted, clearPending. destruct (updateTimeoutId st) eqn:E;
      simpl; rewrite ?E, ?Ht; repeat split; auto.
  - unfold onTimeout. rewrite Ht. simpl. repeat split; auto.
Qed.

Lemma run_stale (later : list (Input P)) (st : State P) :
  stale st -> forallb noStep later = true ->
  shownText (snd (run st later)) = [].
Proof.
  revert st; induction later as [|i later IH]; intros st H Hl;
    [reflexivity|].
  simpl in Hl. apply andb_true_iff in Hl. destruct Hl as [Hi Hl].
  change (i :: later) with ([i] ++ later).
  rewrite run_app, run_one. simpl.
  destruct (@handle_stale st i H Hi) as (Hs & Ho).
  rewrite shownText_app, Ho, (IH _ Hs Hl). reflexivity.
Qed.

Lemma handle_quiet (st : State P) (i : Input P) :
  timers st = [] -> noStepNoChunk i = true ->
  timers (fst (handle st i)) = [] /\ shownText (snd (handle st i)) = [].
Proof.
  intros Ht Hi.
  destruct i as [e|e|e|e|e|id]; try discriminate; simpl.
  - unfold onDone, clearPending. destruct (updateTimeoutId st);
      simpl; rewrite ?Ht; auto.
  - unfold onError, clearPending. destruct (updateTimeoutId st);
      simpl; rewrite ?Ht; auto.
  - unfold onAborted, clearPending. destruct (updateTimeoutId st);
      simpl; rewrite ?Ht; auto.
  - unfold onTimeout. rewrite Ht. simpl. auto.
Qed.

Lemma run_quiet (later : list (Input P)) (st : State P) :
  timers st = [] -> forallb noStepNoChunk later = true ->
  shownText (snd (run st later)) = [].
Proof.
  revert st; induction later as [|i later IH]; intros st H Hl;
    [reflexivity|].
  simpl in Hl. apply andb_true_iff in Hl. destruct Hl as [Hi Hl].
  change (i :: later) with ([i] ++ later).
  rewrite run_app, run_one. simpl.
  destruct (@handle_quiet st i H Hi) as (Hs & Ho).
  rewrite shownText_app, Ho, (IH _ Hs Hl). reflexivity.
Qed.

Lemma terminal_clears_timers (st : State P) (t : Input P) :
  timerOK st -> isTerminalInput t = true ->
  timers (fst (handle st t)) = []
  /\ updateTimeoutId (fst (handle st t)) = updateTimeoutId st.
Proof.
  intros H Ht. destruct t; try discriminate; simpl;
    unfold clearPending;
    (destruct (updateTimeoutId st) as [id|] eqn:E;
     [ split; [apply clearTimeout_timerOK; assumption | simpl; exact E]
     | split; [|exact E];
       destruct H as [H|(id' & Hid & H)]; [exact H | congruence] ]).
Qed.

(** Once done, error or aborted has been handled, no timeout shows
    thinking text any more, whichever timeouts the window still runs: the
    final message is not overwritten by a late flush.  If chunks were
    waiting for their timeout when the terminal callback came, chunks
    that arrive later are not shown either, until a step arrives. *)
Theorem no_flush_after_terminal_event
    (inputs later : list (Input P)) (t : Input P)
    (Hterminal : isTerminalInput t = true) :
  (forallb noStepNoChunk later = true ->
   shownText (snd (run (fst (run (initial P) (inputs ++ [t]))) later)) = [])
  /\ (updateTimeoutId (fst (run (initial P) inputs)) <> None ->
      forallb noStep later = true ->
      shownText (snd (run (fst (run (initial P) (inputs ++ [t]))) later))
        = []).
Proof.
  assert (timerOK (initial P)) as H0 by (left; reflexivity).
  pose proof (run_timerOK inputs H0) as Hok.
  rewrite run_app, run_one. simpl fst.
  destruct (@terminal_clears_timers _ t Hok Hterminal) as [Ht Hid].
  split.
  - intros Hl. apply run_quiet; assumption.
  - intros Hset Hl. apply run_stale; [|exact Hl].
    split; [rewrite Hid; exact Hset | exact Ht].
Qed.

(** ** What the steps record *)

(** The record of a conversation read off the callbacks alone, without
    the buffer and the timer: the thinking kept for each step, the
    actions, and the text streamed since the last step. *)
Record Gathered : Type := {
  thoughts : list jsstring;
  acts : list (Json.value (number P));
  streamed : jsstring
}.

Definition gather (g : Gathered) (i : Input P) : Gathered :=
  match i with
  | Chunk e =>
      {| thoughts := thoughts g; acts := acts g;
         streamed := streamed g ++ chunk e |}
  | Step e =>
      let stepThinking :=
        match thinking e with
        | _ :: _ => thinking e
        | [] => streamed g
        end in
      {| thoughts := match stepThinking with
                     | _ :: _ => thoughts g ++ [stepThinking]
                     | [] => thoughts g
                     end;
         acts := acts g ++ [action e];
         streamed := [] |}
  | _ => g
  end.

Definition gathered (inputs : list (Input P)) : Gathered :=
  fold_left gather inputs {| thoughts := []; acts := []; streamed := [] |}.

(** The updates other than the thinking text that an input makes. *)
Definition milestone (g : Gathered) (i : Input P) : list (Update P) :=
  match i with
  | Step e =>
      [StepUpdate P (thoughts (gather g i)) (acts (gather g i)) (step e)]
  | Done e =>
      [DoneUpdate P (done_message e) (done_success e) (steps e)
         (thoughts g) (acts g)]
  | Error e =>
      [ErrorUpdate P (lit "Error: " ++ error_message e) (thoughts g) (acts g)]
  | Aborted e =>
      [AbortedUpdate P
         match aborted_message e with
         | _ :: _ => aborted_message e
         | [] => lit "Chat aborted by user"
         end (thoughts g) (acts g)]
  | _ => []
  end.

Fixpoint milestones (g : Gathered) (inputs : list (Input P))
  : list (Update P) :=
  match inputs with
  | [] => []
  | i :: rest => milestone g i ++ milestones (gather g i) rest
  end.

Definition isThinkingUpdate (u : Update P) : bool :=
  match u with ThinkingUpdate _ _ _ => true | _ => false end.

Definition isTimeout (i : Input P) : bool :=
  match i with Timeout _ => true | _ => false end.

(** The state holds what [g] says. *)
Definition holds (st : State P) (g : Gathered) : Prop :=
  thinkingList st = thoughts g /\
  actionsList st = acts g /\
  currentThinkingText st ++ join (thinkingChunksBuffer st) = streamed g /\
  armed st.

Lemma flush_holds (st : State P) :
  let st1 := fst (flushThinkingUpdate st) in
  thinkingList st1 = thinkingList st /\
  actionsList st1 = actionsList st /\
  currentThinkingText st1 =
    currentThinkingText st ++ join (thinkingChunksBuffer st) /\
  forall a t, In (ThinkingUpdate P a t) (snd (flushThinkingUpdate st)) ->
              t = currentThinkingText st ++ join (thinkingChunksBuffer st).
Proof.
  unfold flushThinkingUpdate.
  destruct (thinkingChunksBuffer st) as [|c b]; simpl.
  - rewrite app_nil_r. repeat split; auto. tauto.
  - repeat split; auto. intros a t [H|[]]. inversion H. reflexivity.
Qed.

Lemma onThinkingChunk_fields (st : State P) (e : ThinkingChunkEvent) :
  let st1 := fst (onThinkingChunk st e) in
  snd (onThinkingChunk st e) = []
  /\ thinkingList st1 = thinkingList st
  /\ actionsList st1 = actionsList st
  /\ currentThinkingText st1 = currentThinkingText st
  /\ thinkingChunksBuffer st1 = thinkingChunksBuffer st ++ [chunk e].
Proof.
  unfold onThinkingChunk. simpl.
  destruct (updateTimeoutId st); simpl; auto.
Qed.

Lemma clearPending_fields (st : State P) :
  let st1 := clearPending st in
  thinkingList st1 = thinkingList st
  /\ actionsList st1 = actionsList st
  /\ currentThinkingText st1 = currentThinkingText st
  /\ thinkingChunksBuffer st1 = thinkingChunksBuffer st.
Proof.
  unfold clearPending. destruct (updateTimeoutId st); simpl; auto.
Qed.

(** The state and the output of the flush that a step or a timeout
    makes. *)
Lemma flush_after_clear (st : State P) (g : Gathered) (id : nat) :
  holds st g ->
  let f := flushThinkingUpdate (clearTimeout id st) in
  thinkingList (fst f) = thoughts g /\
  actionsList (fst f) = acts g /\
  currentThinkingText (fst f) = streamed g /\
  thinkingChunksBuffer (fst f) = [] /\
  filter (fun u => negb (isThinkingUpdate u)) (snd f) = [] /\
  forall a t, In (ThinkingUpdate P a t) (snd f) -> t = streamed g.
Proof.
  intros (Hth & Hac & Hst & Harm). cbv zeta.
  destruct (flush_holds (clearTimeout id st)) as (H1 & H2 & H3 & H4).
  destruct (flushThinkingUpdate_out (clearTimeout id st)) as (Ho & Hb & _).
  simpl in H1, H2, H3, H4.
  rewrite H1, H2, H3, Hst, Hth, Hac.
  split; [reflexivity | split; [reflexivity | split; [reflexivity |]]].
  split; [exact Hb | split].
  - rewrite Ho. unfold flushed. simpl.
    destruct (thinkingChunksBuffer st); reflexivity.
  - intros a t Hin. rewrite <- Hst. apply (H4 a t Hin).
Qed.

Lemma handle_holds (st : State P) (g : Gathered) (i : Input P) :
  holds st g ->
  holds (fst (handle st i)) (gather g i)
  /\ filter (fun u => negb (isThinkingUpdate u)) (snd (handle st i)) =
     milestone g i
  /\ (forall a t, In (ThinkingUpdate P a t) (snd (handle st i)) ->
                  t = streamed g).
Proof.
  intros H. pose proof H as (Hth & Hac & Hst & Harm).
  pose proof (handle_armed i Harm) as Harm'.
  destruct i as [e|e|e|e|e|id]; cbn [handle] in *.
  - destruct (onThinkingChunk_fields st e) as (Ho & H1 & H2 & H3 & H4).
    rewrite Ho. split; [|split; [reflexivity | simpl; tauto]].
    split; [|split; [|split; [|exact Harm']]]; simpl.
    + congruence.
    + congruence.
    + rewrite H3, H4. unfold join. rewrite concat_app. simpl.
      rewrite app_nil_r, app_assoc. unfold join in Hst. rewrite Hst.
      reflexivity.
  - assert (exists st1 o1,
               (match updateTimeoutId st with
                | Some id => flushThinkingUpdate (clearTimeout id st)
                | None => (st, [])
                end) = (st1, o1)
               /\ thinkingList st1 = thoughts g
               /\ actionsList st1 = acts g
               /\ currentThinkingText st1 = streamed g
               /\ thinkingChunksBuffer st1 = []
               /\ filter (fun u => negb (isThinkingUpdate u)) o1 = []
               /\ forall a t, In (ThinkingUpdate P a t) o1 -> t = streamed g)
      as (st1 & o1 & E & H1 & H2 & H3 & H4 & H5 & H6).
    { destruct (updateTimeoutId st) as [id|] eqn:Eid.
      - pose proof (flush_after_clear id H) as Hf. cbv zeta in Hf.
        destruct (flushThinkingUpdate (clearTimeout id st)) as [st1 o1].
        exists st1, o1. simpl in Hf. tauto.
      - exists st, []. simpl.
        assert (thinkingChunksBuffer st = []) as Hb.
        { destruct (thinkingChunksBuffer st) eqn:Eb; [reflexivity|].
          exfalso. apply Harm; [rewrite Eb; discriminate | exact Eid]. }
        rewrite Hb in Hst. simpl in Hst. rewrite app_nil_r in Hst.
        repeat split; auto. tauto. }
    unfold onStep in *. rewrite E in *.
    split; [|split].
    + split; [|split; [|split]]; simpl.
      * rewrite H1, H3. destruct (thinking e); reflexivity.
      * rewrite H2. reflexivity.
      * rewrite H4. reflexivity.
      * exact Harm'.
    + simpl. rewrite filter_app, H5. simpl. rewrite H1, H2, H3.
      destruct (thinking e); reflexivity.
    + simpl. intros a t Hin. apply in_app_or in Hin.
      destruct Hin as [Hin|[Hin|[]]]; [apply (H6 a t Hin) | discriminate].
  - destruct (clearPending_fields st) as (H1 & H2 & H3 & H4).
    unfold onDone in *. simpl.
    split; [|split; [simpl; congruence | intros a t [Hin|[]]; discriminate]].
    split; [congruence | split; [congruence | split; [congruence|]]].
    exact Harm'.
  - destruct (clearPending_fields st) as (H1 & H2 & H3 & H4).
    unfold onError in *. simpl.
    split; [|split; [simpl; congruence | intros a t [Hin|[]]; discriminate]].
    split; [congruence | split; [congruence | split; [congruence|]]].
    exact Harm'.
  - destruct (clearPending_fields st) as (H1 & H2 & H3 & H4).
    unfold onAborted in *. simpl.
    split; [|split; [simpl; congruence | intros a t [Hin|[]]; discriminate]].
    split; [congruence | split; [congruence | split; [congruence|]]].
    exact Harm'.
  - unfold onTimeout in *.
    destruct (existsb (Nat.eqb id) (timers st)).
    + pose proof (flush_after_clear id H) as Hf. cbv zeta in Hf.
      destruct Hf as (H1 & H2 & H3 & H4 & H5 & H6).
      split; [|split; [exact H5 | exact H6]].
      split; [exact H1 | split; [exact H2 | split; [|exact Harm']]].
      rewrite H3, H4. simpl. apply app_nil_r.
    + simpl. split; [exact H | split; [reflexivity | tauto]].
Qed.

Lemma run_holds (inputs : list (Input P)) (st : State P) (g : Gathered) :
  holds st g ->
  holds (fst (run st inputs)) (fold_left gather inputs g)
  /\ filter (fun u => negb (isThinkingUpdate u)) (snd (run st inputs)) =
     milestones g inputs.
Proof.
  revert st g; induction inputs as [|i inputs IH]; intros st g H.
  - simpl. auto.
  - destruct (handle_holds i H) as (H1 & H2 & _).
    destruct (IH _ _ H1) as (H3 & H4).
    cbn [run fold_left milestones].
    destruct (handle st i) as [st1 o1]. cbn [fst snd] in *.
    destruct (run st1 inputs) as [st2 o2]. cbn [fst snd] in *.
    split; [exact H3|].
    rewrite filter_app, H2, H4. reflexivity.
Qed.

Lemma initial_holds :
  holds (initial P) {| thoughts := []; acts := []; streamed := [] |}.
Proof. repeat split. apply initial_armed. Qed.

(** The actions of the step events, in order. *)
Definition stepActions (inputs : list (Input P))
  : list (Json.value (number P)) :=
  concat (map (fun i => match i with Step e => [action e] | _ => [] end)
              inputs).

Lemma gather_acts (inputs : list (Input P)) (g : Gathered) :
  acts (fold_left gather inputs g) = acts g ++ stepActions inputs
  /\ length (thoughts (fold_left gather inputs g)) <=
     length (thoughts g) + length (stepActions inputs).
Proof.
  revert g; induction inputs as [|i inputs IH]; intros g.
  - simpl. rewrite app_nil_r. split; [reflexivity | lia].
  - simpl fold_left. destruct (IH (gather g i)) as [H1 H2].
    rewrite H1. unfold stepActions in *. simpl.
    destruct i as [e|e|e|e|e|id]; simpl in *;
      try (split; [reflexivity | lia]).
    split; [rewrite <- app_assoc; reflexivity|].
    destruct (thinking e); [destruct (streamed g)|]; simpl in *;
      rewrite ?length_app in *; simpl in *; lia.
Qed.

(** After any callbacks and timeouts, [actionsList] holds the action of
    every step in order and [thinkingList] holds, for each step, the
    thinking that the step carries or, when that is empty, the text
    streamed since the step before (nothing when both are empty): what
    [gathered] reads off the events, whenever the timeouts ran.  So there
    are never more thinking entries than actions. *)
Theorem steps_record_thinking_and_actions (inputs : list (Input P)) :
  let st := fst (run (initial P) inputs) in
  thinkingList st = thoughts (gathered inputs)
  /\ actionsList st = stepActions inputs
  /\ length (thinkingList st) <= length (actionsList st)
  /\ currentThinkingText st ++ join (thinkingChunksBuffer st) =
     streamed (gathered inputs).
Proof.
  cbv zeta.
  destruct (run_holds inputs initial_holds) as ((H1 & H2 & H3 & _) & _).
  destruct (gather_acts inputs
              {| thoughts := []; acts := []; streamed := [] |}) as [Ha Hl].
  fold (gathered inputs) in *. simpl in Ha, Hl.
  rewrite H1, H2, Ha. repeat split; auto.
Qed.

Lemma milestones_timeouts (inputs : list (Input P)) (g : Gathered) :
  milestones g (filter (fun i => negb (isTimeout i)) inputs) =
  milestones g inputs
  /\ fold_left gather (filter (fun i => negb (isTimeout i)) inputs) g =
     fold_left gather inputs g.
Proof.
  revert g; induction inputs as [|i inputs IH]; intros g; [auto|].
  destruct i as [e|e|e|e|e|id]; simpl;
    destruct (IH (gather g (Chunk e))) as [H1 H2] ||
    destruct (IH (gather g (Step e))) as [H1 H2] ||
    destruct (IH g) as [H1 H2]; simpl in *;
    rewrite ?H1, ?H2; auto.
Qed.

(** The step updates and the final update, and the lists they carry, do
    not depend on when the timeouts ran: two runs with the same callbacks
    in the same order, whatever timeouts lie between them, make the same
    updates apart from the thinking text. *)
Theorem timeouts_do_not_change_the_record
    (inputs inputs' : list (Input P))
    (Hsame : filter (fun i => negb (isTimeout i)) inputs =
             filter (fun i => negb (isTimeout i)) inputs') :
  filter (fun u => negb (isThinkingUpdate u)) (snd (run (initial P) inputs))
  = filter (fun u => negb (isThinkingUpdate u))
      (snd (run (initial P) inputs'))
  /\ thinkingList (fst (run (initial P) inputs)) =
     thinkingList (fst (run (initial P) inputs'))
  /\ actionsList (fst (run (initial P) inputs)) =
     actionsList (fst (run (initial P) inputs')).
Proof.
  destruct (run_holds inputs initial_holds) as ((H1 & H2 & _) & H3).
  destruct (run_holds inputs' initial_holds) as ((H1' & H2' & _) & H3').
  set (g0 := {| thoughts := []; acts := []; streamed := [] |}) in *.
  destruct (milestones_timeouts inputs g0) as [Hm Hg].
  destruct (milestones_timeouts inputs' g0) as [Hm' Hg'].
  rewrite H1, H2, H3, H1', H2', H3', <- Hm, <- Hg, <- Hm', <- Hg', Hsame.
  auto.
Qed.

(** Every thinking text that a flush puts on the screen is the text of
    all chunks that arrived since the last step. *)
Theorem shown_thinking_is_the_text_since_the_last_step
    (inputs : list (Input P)) (i : Input P) (a t : jsstring)
    (Hshown : In (ThinkingUpdate P a t)
                (snd (handle (fst (run (initial P) inputs)) i))) :
  t = streamed (gathered inputs).
Proof.
  destruct (run_holds inputs initial_holds) as (H & _).
  destruct (handle_holds i H) as (_ & _ & H3).
  apply (H3 a t Hshown).
Qed.

End Facts.

End PanelMore.

(** * The messages on screen *)

(** The [setMessages] calls of DevicePanel.tsx, as functions on the list
    of messages. *)

Module Messages.
Import JS JSFacts Panel PanelFacts.

Section Screen.

Variable P : Platform.
Let json : Type := Json.value (number P).

Inductive Role : Type := User | Assistant.

(** A [Date]: made by [new Date()] when the clock shows [ms], or by
    [new Date(text)]. *)
Inductive Time : Type :=
| Clock (ms : N)
| Parsed (text : jsstring).

(** [interface Message]; an optional field that is absent or [undefined]
    is [None]. *)
Record Message : Type := {
  id : jsstring;
  role : Role;
  content : jsstring;
  timestamp : Time;
  steps : option (number P);
  success : option bool;
  thinking : option (list jsstring);
  actions : option (list json);
  isStreaming : option bool;
  currentThinking : option jsstring
}.

(** ** handleSend: the two messages it appends *)

(** [input.trim()], [loading], and the clock at [Date.now()],
    [new Date()], [Date.now()] and [new Date()]. *)
Definition userMessage (inputValue : jsstring) (now1 now2 : N) : Message :=
  {| id := ofN now1; role := User; content := inputValue;
     timestamp := Clock now2;
     steps := None; success := None; thinking := None; actions := None;
     isStreaming := None; currentThinking := None |}.

Definition agentMessage (now3 now4 : N) : Message :=
  {| id := ofN (now3 + 1); role := Assistant; content := [];
     timestamp := Clock now4;
     steps := None; success := None;
     thinking := Some []; actions := Some [];
     isStreaming := Some true; currentThinking := Some [] |}.

(** The messages after the start of [handleSend]; [None] when it returns
    at once. *)
Definition handleSend (input : jsstring) (loading : bool)
    (now1 now2 now3 now4 : N) (prev : list Message)
  : option (list Message) :=
  let inputValue := trim input in
  match inputValue, loading with
  | _ :: _, false =>
      Some ((prev ++ [userMessage inputValue now1 now2])
            ++ [agentMessage now3 now4])
  | _, _ => None
  end.

(** ** The updates of the callbacks *)

Section Callbacks.

Variable agentMessageId : jsstring.
Variable agent : Message.

Definition onAgent (f : Message -> Message) (prev : list Message)
  : list Message :=
  map (fun msg => if eqb (id msg) agentMessageId then f msg else msg) prev.

(** [updatedAgentMessage] of the three terminal callbacks *)
Definition updatedAgentMessage (now : N) (content : jsstring)
    (success : bool) (steps : option (number P))
    (thinking : list jsstring) (actions : list json) : Message :=
  {| id := id agent; role := role agent; content := content;
     timestamp := Clock now;
     steps := steps; success := Some success;
     thinking := Some thinking; actions := Some actions;
     isStreaming := Some false; currentThinking := None |}.

(** The [setMessages] call behind each update; [now] is the clock at its
    [new Date()]. *)
Definition setMessages (now : N) (u : Update P) (prev : list Message)
  : list Message :=
  match u with
  | ThinkingUpdate _ _ currentThinkingText =>
      onAgent (fun msg =>
        {| id := id msg; role := role msg; content := content msg;
           timestamp := timestamp msg; steps := steps msg;
           success := success msg; thinking := thinking msg;
           actions := actions msg; isStreaming := isStreaming msg;
           currentThinking := Some currentThinkingText |}) prev
  | StepUpdate _ thinkingList actionsList step =>
      onAgent (fun msg =>
        {| id := id msg; role := role msg; content := content msg;
           timestamp := timestamp msg; steps := Some step;
           success := success msg; thinking := Some thinkingList;
           actions := Some actionsList; isStreaming := isStreaming msg;
           currentThinking := Some [] |}) prev
  | DoneUpdate _ message success steps thinkingList actionsList =>
      onAgent (fun _ =>
        updatedAgentMessage now message success (Some steps)
          thinkingList actionsList) prev
  | ErrorUpdate _ message thinkingList actionsList =>
      onAgent (fun _ =>
        updatedAgentMessage now message false (steps agent)
          thinkingList actionsList) prev
  | AbortedUpdate _ message thinkingList actionsList =>
      onAgent (fun _ =>
        updatedAgentMessage now message false (steps agent)
          thinkingList actionsList) prev
  end.

End Callbacks.

(** ** handleAbortChat *)

(** [prev.map((msg, index) => ...)] *)
Fixpoint mapIndexed (f : Message -> nat -> Message) (index : nat)
    (l : list Message) : list Message :=
  match l with
  | [] => []
  | msg :: rest => f msg index :: mapIndexed f (S index) rest
  end.

(** The update of [handleAbortChat]; [aborted] is the text
    [t.chat.aborted]. *)
Definition abortLast (aborted : jsstring) (prev : list Message)
  : list Message :=
  match nth_error prev (length prev - 1) with
  | Some lastMessage =>
      match role lastMessage, isStreaming lastMessage with
      | Assistant, Some true =>
          mapIndexed
            (fun msg index =>
               if Nat.eqb index (length prev - 1)
               then {| id := id msg; role := role msg;
                       content := match content msg with
                                  | _ :: _ => content msg
                                  | [] => aborted
                                  end;
                       timestamp := timestamp msg; steps := steps msg;
                       success := Some false; thinking := thinking msg;
                       actions := actions msg; isStreaming := Some false;
                       currentThinking := None |}
               else msg) 0 prev
      | _, _ => prev
      end
  | None => prev
  end.

(** What happens to the screen during a chat: an update of a callback at
    some time, or a click on the abort button. *)
Inductive Op : Type :=
| Shown (now : N) (u : Update P)
| AbortChat (aborted : jsstring).

Definition screen (agentMessageId : jsstring) (agent : Message)
    (ops : list Op) (prev : list Message) : list Message :=
  fold_left (fun msgs op =>
               match op with
               | Shown now u => setMessages agentMessageId agent now u msgs
               | AbortChat aborted => abortLast aborted msgs
               end) ops prev.

End Screen.

End Messages.

From Stdlib Require DecimalPos DecimalN.

Module MessagesFacts.
Import JS JSFacts Panel PanelFacts PanelMore Messages.

(** ** Identifiers made of the clock *)

Lemma lit_inj (s s' : string) : lit s = lit s' -> s = s'.
Proof.
  unfold lit. revert s'.
  induction s as [|c s IH]; intros [|c' s'] H; simpl in H;
    try discriminate; [reflexivity|].
  inversion H as [[Hc Hs]].
  rewrite <- (ascii_N_embedding c), <- (ascii_N_embedding c'), Hc.
  f_equal. apply IH, Hs.
Qed.

Lemma to_uint_nonnil (n : N) : N.to_uint n <> Decimal.Nil.
Proof.
  destruct n as [|p]; [discriminate|].
  apply DecimalPos.Unsigned.to_uint_nonnil.
Qed.

(** Different numbers print differently. *)
Lemma ofN_inj (n n' : N) : ofN n = ofN n' -> n = n'.
Proof.
  unfold ofN. intros H. apply lit_inj in H.
  apply DecimalN.Unsigned.to_uint_inj.
  pose proof (NilZero.usu (N.to_uint n) (to_uint_nonnil n)) as E.
  pose proof (NilZero.usu (N.to_uint n') (to_uint_nonnil n')) as E'.
  rewrite H in E. congruence.
Qed.

Section Facts.

Variable P : Platform.

(** ** What the updates leave alone *)

Lemma onAgent_others (agentMessageId : jsstring)
    (f : Message P -> Message P) (l : list (Message P)) :
  Forall (fun m => id m <> agentMessageId) l ->
  onAgent agentMessageId f l = l.
Proof.
  induction 1 as [|m l Hm _ IH]; simpl; [reflexivity|].
  rewrite IH. apply eqb_neq in Hm. rewrite Hm. reflexivity.
Qed.

Lemma onAgent_app (agentMessageId : jsstring)
    (f : Message P -> Message P) (a b : list (Message P)) :
  onAgent agentMessageId f (a ++ b) =
  onAgent agentMessageId f a ++ onAgent agentMessageId f b.
Proof. apply map_app. Qed.

Lemma mapIndexed_last (f : Message P -> nat -> Message P)
    (l : list (Message P)) (m : Message P) (k : nat) :
  (forall x j, j <> k + length l -> f x j = x) ->
  mapIndexed f k (l ++ [m]) = l ++ [f m (k + length l)].
Proof.
  revert k; induction l as [|x l IH]; intros k H; simpl in *.
  - rewrite Nat.add_0_r. reflexivity.
  - rewrite H by lia. f_equal.
    rewrite IH.
    + do 3 f_equal. lia.
    + intros y j Hj. apply H. simpl. lia.
Qed.

(** The message that the abort button leaves in place of [m]. *)
Definition abortedMessage (aborted : jsstring) (m : Message P)
  : Message P :=
  {| id := id m; role := role m;
     content := match content m with
                | _ :: _ => content m
                | [] => aborted
                end;
     timestamp := timestamp m; steps := steps m;
     success := Some false; thinking := thinking m;
     actions := actions m; isStreaming := Some false;
     currentThinking := None |}.

Definition streamingAssistant (m : Message P) : bool :=
  match role m, isStreaming m with
  | Assistant, Some true => true
  | _, _ => false
  end.

Lemma abortLast_snoc (aborted : jsstring) (l : list (Message P))
    (m : Message P) :
  abortLast aborted (l ++ [m]) =
  l ++ [if streamingAssistant m then abortedMessage aborted m else m].
Proof.
  unfold abortLast, streamingAssistant.
  rewrite length_app. simpl.
  replace (length l + 1 - 1) with (length l) by lia.
  rewrite nth_error_app2 by lia. rewrite Nat.sub_diag. simpl.
  destruct (role m); [reflexivity|].
  destruct (isStreaming m) as [[|]|]; try reflexivity.
  rewrite mapIndexed_last.
  - simpl. rewrite Nat.eqb_refl. reflexivity.
  - intros x j Hj. simpl in Hj.
    destruct (Nat.eqb j (length l)) eqn:E; [|reflexivity].
    apply Nat.eqb_eq in E. contradiction.
Qed.

Lemma exists_last_or_nil (l : list (Message P)) :
  l = [] \/ exists l' m, l = l' ++ [m].
Proof.
  destruct l as [|x l]; [left; reflexivity | right].
  destruct (exists_last (l:=x :: l)) as (l' & m & H); [discriminate|].
  exists l', m. exact H.
Qed.

(** The abort button changes the last message only, and only when it is a
    streaming message of the assistant: it then stops streaming, fails,
    loses its current thinking and, if it had no content, gets the
    aborted text.  The list keeps its length, a list whose last message
    is not such a message stays as it is, and a second click changes
    nothing. *)
Theorem abort_button_settles_the_last_message
    (aborted aborted' : jsstring) (prev : list (Message P)) :
  length (abortLast aborted prev) = length prev
  /\ firstn (length prev - 1) (abortLast aborted prev) =
     firstn (length prev - 1) prev
  /\ abortLast aborted' (abortLast aborted prev) = abortLast aborted prev
  /\ (forall l m, prev = l ++ [m] ->
        abortLast aborted prev =
        l ++ [if streamingAssistant m then abortedMessage aborted m else m])
  /\ (forall l m, abortLast aborted prev = l ++ [m] ->
        streamingAssistant m = false).
Proof.
  destruct (exists_last_or_nil prev) as [-> | (l & m & ->)].
  - repeat split; try reflexivity.
    + intros l m H. destruct l; discriminate.
    + intros l m H. destruct l; discriminate.
  - rewrite abortLast_snoc, !length_app. simpl.
    replace (length l + 1 - 1) with (length l) by lia.
    rewrite !firstn_app, !Nat.sub_diag, !firstn_all. simpl.
    split; [reflexivity | split; [reflexivity | split; [|split]]].
    + rewrite abortLast_snoc.
      destruct (streamingAssistant m) eqn:E; [|rewrite E; reflexivity].
      unfold streamingAssistant, abortedMessage. simpl.
      destruct (role m); reflexivity.
    + intros l' m' H. apply app_inj_tail in H. destruct H as [-> ->].
      reflexivity.
    + intros l' m' H. apply app_inj_tail in H. destruct H as [_ <-].
      destruct (streamingAssistant m) eqn:E; [|exact E].
      unfold streamingAssistant, abortedMessage. simpl.
      destruct (role m); reflexivity.
Qed.

End Facts.

End MessagesFacts.
